(** * MATAT REAL IDE backend: terminal / CLI session manager

    A shallow embedding of [MatatRealServer] (the socket.io backend): the
    two registries [terminals] and [cliProcesses], the socket handlers
    installed by [setupSocketHandlers], and the methods [createTerminal],
    [startCLI], [sendCLICommand], [buildEnrichedPrompt], [stopCLI],
    [checkCLIAvailability], [getShell] and [cleanup].

    The two JavaScript [Map]s are finite maps keyed by strings.  The
    pseudo-terminal processes created by [pty.spawn] live in a process
    table indexed by handle; every call the server makes on a process
    ([write], [resize], [kill]) is recorded in the process itself, and every
    [socket.emit] is appended to an outbox. *)

From Stdlib Require Import ZArith NArith DecimalString DecimalN Sorted.
From stdpp Require Import gmap strings list fin_maps.

(** ** JavaScript values used by the handlers *)

(** The character written by the template escapes [\n] and [\r], and the
    interrupt byte [\x03]. *)
Definition LF : string := String (Ascii.ascii_of_nat 10) EmptyString.
Definition CR : string := String (Ascii.ascii_of_nat 13) EmptyString.
Definition ETX : string := String (Ascii.ascii_of_nat 3) EmptyString.

(** A property that may be missing from a payload is an [option]; [None] is
    [undefined].  Truthiness of an optional string: [undefined] and the empty
    string are falsy. *)
Definition truthy (v : option string) : bool :=
  match v with
  | Some (String _ _) => true
  | _ => false
  end.

(** [v || d] on an optional string. *)
Definition or_string (v : option string) (d : string) : string :=
  match v with
  | Some (String c s) => String c s
  | _ => d
  end.

(** [v || d] on an optional number: [undefined] and [0] are falsy. *)
Definition or_number (v : option N) (d : N) : N :=
  match v with
  | Some (Npos p) => Npos p
  | _ => d
  end.

(** Decimal rendering of a non-negative integer inside a template literal. *)
Definition number_to_string (n : N) : string :=
  NilEmpty.string_of_uint (N.to_uint n).

(** ** Enriched prompt *)

(** A field of the [context] object the client sends: missing, [null] (the
    front end sends [currentFile: null] when no file is open) or a string. *)
Inductive Field :=
  | undefined
  | null
  | text (s : string).

(** Truthiness of a field: only a non-empty string is truthy. *)
Definition field_truthy (v : Field) : bool :=
  match v with
  | text (String _ _) => true
  | _ => false
  end.

(** [${v}] inside a template literal. *)
Definition interpolate (v : Field) : string :=
  match v with
  | undefined => "undefined"
  | null => "null"
  | text s => s
  end.

Record Context := {
  currentFile : Field;
  selectedCode : Field;
  projectInfo : Field
}.

(** [context = {}]: the default of [buildEnrichedPrompt]'s second argument. *)
Definition empty_context : Context :=
  {| currentFile := undefined; selectedCode := undefined; projectInfo := undefined |}.

(** The three segments, as the template literals write them. *)
Definition currentFile_line (f : string) : string :=
  "📁 Current file: " +:+ f +:+ LF.

Definition selectedCode_block (c : string) : string :=
  "🎯 Selected code:" +:+ LF +:+ "```" +:+ LF +:+ c +:+ LF +:+ "```" +:+ LF +:+ LF.

Definition projectInfo_line (p : string) : string :=
  "📂 Project: " +:+ p +:+ LF +:+ LF.

Definition buildEnrichedPrompt (command : string) (context : option Context) : string :=
  let context := default empty_context context in
  let prompt := EmptyString in
  let prompt :=
    if field_truthy context.(currentFile)
    then prompt +:+ currentFile_line (interpolate context.(currentFile))
    else prompt in
  let prompt :=
    if field_truthy context.(selectedCode)
    then prompt +:+ selectedCode_block (interpolate context.(selectedCode))
    else prompt in
  let prompt :=
    if field_truthy context.(projectInfo)
    then prompt +:+ projectInfo_line (interpolate context.(projectInfo))
    else prompt in
  prompt +:+ command.

(** ** Registry entries, processes and notifications *)

(** A socket.io connection is identified by its socket; a pseudo-terminal
    process by its handle, the index in the process table. *)
Abbreviation Socket := nat.
Abbreviation Handle := nat.

(** The object stored in [this.terminals]. *)
Record Terminal := {
  id : string;
  ptyProcess : Handle;
  socket : Socket;
  createdAt : N
}.

(** The object stored in [this.cliProcesses]. *)
Record CliProcess := {
  type : string;
  active : bool;
  startedAt : N
}.

(** A process made by [pty.spawn], with what the server did to it so far and
    the variables its [onData] / [onExit] callbacks closed over. *)
Record Pty := {
  pty_shell : string;
  pty_cols : N;
  pty_rows : N;
  pty_cwd : string;
  pty_input : list string;   (* arguments of the write calls, oldest first *)
  pty_signals : nat;         (* number of kill calls *)
  pty_exited : bool;         (* the exit callback has run *)
  cb_terminalId : string;
  cb_socket : Socket
}.

Inductive Notification :=
  | terminal_output (terminalId data : string)
  | terminal_exit (terminalId : string) (exitCode : Z) (signal : option Z)
  | terminal_created (terminalId shell cwd : string)
  | cli_error (error : string) (suggestion : option string)
  | cli_started (terminalId type message : string)
  | cli_command_sent (terminalId command type : string)
  | cli_stopped (terminalId type : string).

(** A pending [checkCLIAvailability(type).then(...)] of [startCLI], with the
    variables the continuation closed over. *)
Record Probe := {
  pr_socket : Socket;
  pr_type : string;
  pr_terminalId : string;
  pr_terminal : Terminal
}.

Record Server := {
  terminals : gmap string Terminal;
  cliProcesses : gmap string CliProcess;
  ptys : list Pty;
  outbox : list (Socket * Notification);   (* socket.emit calls, oldest first *)
  probes : list Probe;
  workspaceRoot : string;
  platform : string;                       (* process.platform *)
  env_SHELL : option string                (* process.env.SHELL *)
}.

Definition set_terminals (f : gmap string Terminal → gmap string Terminal)
    (st : Server) : Server :=
  {| terminals := f st.(terminals); cliProcesses := st.(cliProcesses);
     ptys := st.(ptys); outbox := st.(outbox); probes := st.(probes);
     workspaceRoot := st.(workspaceRoot); platform := st.(platform);
     env_SHELL := st.(env_SHELL) |}.

Definition set_cliProcesses (f : gmap string CliProcess → gmap string CliProcess)
    (st : Server) : Server :=
  {| terminals := st.(terminals); cliProcesses := f st.(cliProcesses);
     ptys := st.(ptys); outbox := st.(outbox); probes := st.(probes);
     workspaceRoot := st.(workspaceRoot); platform := st.(platform);
     env_SHELL := st.(env_SHELL) |}.

Definition set_ptys (f : list Pty → list Pty) (st : Server) : Server :=
  {| terminals := st.(terminals); cliProcesses := st.(cliProcesses);
     ptys := f st.(ptys); outbox := st.(outbox); probes := st.(probes);
     workspaceRoot := st.(workspaceRoot); platform := st.(platform);
     env_SHELL := st.(env_SHELL) |}.

Definition set_probes (f : list Probe → list Probe) (st : Server) : Server :=
  {| terminals := st.(terminals); cliProcesses := st.(cliProcesses);
     ptys := st.(ptys); outbox := st.(outbox); probes := f st.(probes);
     workspaceRoot := st.(workspaceRoot); platform := st.(platform);
     env_SHELL := st.(env_SHELL) |}.

(** [socket.emit(event, payload)]. *)
Definition emit (sock : Socket) (n : Notification) (st : Server) : Server :=
  {| terminals := st.(terminals); cliProcesses := st.(cliProcesses);
     ptys := st.(ptys); outbox := st.(outbox) ++ [(sock, n)]; probes := st.(probes);
     workspaceRoot := st.(workspaceRoot); platform := st.(platform);
     env_SHELL := st.(env_SHELL) |}.

(** The constructor's registries: two empty maps, no process yet. *)
Definition new_server (root plat : string) (sh : option string) : Server :=
  {| terminals := ∅; cliProcesses := ∅; ptys := []; outbox := []; probes := [];
     workspaceRoot := root; platform := plat; env_SHELL := sh |}.

(** ** Calls on a process *)

Definition written (data : string) (p : Pty) : Pty :=
  {| pty_shell := p.(pty_shell); pty_cols := p.(pty_cols); pty_rows := p.(pty_rows);
     pty_cwd := p.(pty_cwd); pty_input := p.(pty_input) ++ [data];
     pty_signals := p.(pty_signals); pty_exited := p.(pty_exited);
     cb_terminalId := p.(cb_terminalId); cb_socket := p.(cb_socket) |}.

Definition resized (cols rows : N) (p : Pty) : Pty :=
  {| pty_shell := p.(pty_shell); pty_cols := cols; pty_rows := rows;
     pty_cwd := p.(pty_cwd); pty_input := p.(pty_input);
     pty_signals := p.(pty_signals); pty_exited := p.(pty_exited);
     cb_terminalId := p.(cb_terminalId); cb_socket := p.(cb_socket) |}.

Definition signalled (p : Pty) : Pty :=
  {| pty_shell := p.(pty_shell); pty_cols := p.(pty_cols); pty_rows := p.(pty_rows);
     pty_cwd := p.(pty_cwd); pty_input := p.(pty_input);
     pty_signals := S p.(pty_signals); pty_exited := p.(pty_exited);
     cb_terminalId := p.(cb_terminalId); cb_socket := p.(cb_socket) |}.

Definition exited (p : Pty) : Pty :=
  {| pty_shell := p.(pty_shell); pty_cols := p.(pty_cols); pty_rows := p.(pty_rows);
     pty_cwd := p.(pty_cwd); pty_input := p.(pty_input);
     pty_signals := p.(pty_signals); pty_exited := true;
     cb_terminalId := p.(cb_terminalId); cb_socket := p.(cb_socket) |}.

(** [ptyProcess.write(data)], [ptyProcess.resize(cols, rows)] and
    [ptyProcess.kill()]. *)
Definition pty_write (h : Handle) (data : string) : Server → Server :=
  set_ptys (alter (written data) h).

Definition pty_resize (h : Handle) (cols rows : N) : Server → Server :=
  set_ptys (alter (resized cols rows) h).

Definition pty_kill (h : Handle) : Server → Server :=
  set_ptys (alter signalled h).

(** ** Payloads of the inbound events *)

Record CreateData := {
  c_terminalId : option string;
  c_cols : option N;
  c_rows : option N;
  c_cwd : option string
}.

Record InputData := { i_terminalId : string; i_input : string }.
Record ResizeData := { r_terminalId : string; r_cols : N; r_rows : N }.
Record StartData := { s_type : string; s_terminalId : string }.
Record CommandData := {
  m_terminalId : string;
  m_command : string;
  m_context : option Context
}.
Record StopData := { p_terminalId : string }.

(** [data = {}], the default of [createTerminal]'s second argument. *)
Definition empty_create : CreateData :=
  {| c_terminalId := None; c_cols := None; c_rows := None; c_cwd := None |}.

(** A handler either returns or throws.  A handler that reads a property of
    its payload throws a [TypeError] when the client sent no payload;
    [ptyProcess.resize] throws an [Error] when asked for a size that is not
    positive, and the handler lets it through. *)
Inductive Exn :=
  | TypeError
  | PtyError.

Inductive Outcome :=
  | Returned (st : Server)
  | Thrown (e : Exn).

(** ** The methods of [MatatRealServer] *)

Definition getShell (st : Server) : string :=
  if bool_decide (st.(platform) = "win32") then "powershell.exe"
  else or_string st.(env_SHELL) "bash".

(** The identifier [createTerminal] makes up when the payload has none:
    [`terminal_${Date.now()}`]. *)
Definition generated_id (now : N) : string :=
  "terminal_" +:+ number_to_string now.

(** The process [pty.spawn] hands back, with the two callbacks
    [createTerminal] registers on it. *)
Definition spawned (shell : string) (cols rows : N) (cwd : string)
    (terminalId : string) (sock : Socket) : Pty :=
  {| pty_shell := shell; pty_cols := cols; pty_rows := rows; pty_cwd := cwd;
     pty_input := []; pty_signals := 0; pty_exited := false;
     cb_terminalId := terminalId; cb_socket := sock |}.

(** [createTerminal(socket, data = {})]; [now] is the clock reading, which
    serves both [Date.now()] of the identifier and [new Date()] of
    [createdAt], a few statements apart.  The new process gets the next free
    handle.  The result is the returned
    [terminalId] and the state the call leaves. *)
Definition createTerminal (sock : Socket) (data : option CreateData) (now : N)
    (st : Server) : string * Server :=
  let data := default empty_create data in
  let terminalId := or_string data.(c_terminalId) (generated_id now) in
  let shell := getShell st in
  let cwd := or_string data.(c_cwd) st.(workspaceRoot) in
  let ptyProcess := length st.(ptys) in
  let st := set_ptys (λ l, l ++ [spawned shell (or_number data.(c_cols) 120)
                                   (or_number data.(c_rows) 30) cwd terminalId sock]) st in
  let st := set_terminals (insert terminalId
              {| id := terminalId; ptyProcess := ptyProcess; socket := sock;
                 createdAt := now |}) st in
  let st := emit sock (terminal_created terminalId shell cwd) st in
  (terminalId, st).

(** The [onData] callback of process [h]: whenever it is called it emits
    the output, under the identifier and to the socket it closed over. *)
Definition onData (h : Handle) (data : string) (st : Server) : Server :=
  match st.(ptys) !! h with
  | Some p => emit p.(cb_socket) (terminal_output p.(cb_terminalId) data) st
  | None => st
  end.

(** The [onExit] callback of process [h]: whenever it is called it emits the
    exit notification and deletes the entry under the identifier it closed
    over; the process table records that the process has reported exit. *)
Definition onExit (h : Handle) (exitCode : Z) (signal : option Z) (st : Server) : Server :=
  match st.(ptys) !! h with
  | Some p =>
      let st := set_ptys (alter exited h) st in
      let st := emit p.(cb_socket) (terminal_exit p.(cb_terminalId) exitCode signal) st in
      set_terminals (delete p.(cb_terminalId)) st
  | None => st
  end.

(** The handlers of [terminal:input] and [terminal:resize]. *)
Definition on_terminal_input (data : option InputData) (st : Server) : Outcome :=
  match data with
  | None => Thrown TypeError
  | Some data =>
      match st.(terminals) !! data.(i_terminalId) with
      | Some terminal => Returned (pty_write terminal.(ptyProcess) data.(i_input) st)
      | None => Returned st
      end
  end.

Definition on_terminal_resize (data : option ResizeData) (st : Server) : Outcome :=
  match data with
  | None => Thrown TypeError
  | Some data =>
      match st.(terminals) !! data.(r_terminalId) with
      | Some terminal =>
          if bool_decide (data.(r_cols) = 0%N ∨ data.(r_rows) = 0%N)
          then Thrown PtyError
          else Returned (pty_resize terminal.(ptyProcess) data.(r_cols) data.(r_rows) st)
      | None => Returned st
      end
  end.

(** [checkCLIAvailability]: the promise is settled by the first of the
    child's [close] and [error] events.  [spawn] is
    [child_process.spawn(type, ['--version'])]: it hands back a child, given
    here by the events it will emit, or throws at once, as it does for a
    file name it does not accept; a throw inside the executor rejects the
    promise. *)
Inductive ChildEvent :=
  | child_close (code : option Z)   (* null when killed by a signal *)
  | child_error.

Inductive Spawned :=
  | spawn_child (events : list ChildEvent)
  | spawn_threw (message : string).

Inductive Promise (A : Type) :=
  | Pending
  | Fulfilled (a : A)
  | Rejected (reason : string).
Arguments Pending {A}.
Arguments Fulfilled {A} a.
Arguments Rejected {A} reason.

Definition resolve {A} (a : A) (p : Promise A) : Promise A :=
  match p with
  | Pending => Fulfilled a
  | _ => p
  end.

Definition on_child (p : Promise bool) (e : ChildEvent) : Promise bool :=
  match e with
  | child_close code => resolve (bool_decide (code = Some 0%Z)) p
  | child_error => resolve false p
  end.

Definition checkCLIAvailability (spawn : string → list string → Spawned)
    (type : string) : Promise bool :=
  match spawn type ["--version"] with
  | spawn_child events => foldl on_child Pending events
  | spawn_threw message => Rejected message
  end.

(** [startCLI]: the synchronous part leaves the continuation pending. *)
Definition startCLI (sock : Socket) (data : option StartData) (st : Server) : Outcome :=
  match data with
  | None => Thrown TypeError
  | Some data =>
      match st.(terminals) !! data.(s_terminalId) with
      | None => Returned (emit sock (cli_error "Terminal not found" None) st)
      | Some terminal =>
          Returned (set_probes (λ l, l ++ [{| pr_socket := sock; pr_type := data.(s_type);
                                             pr_terminalId := data.(s_terminalId);
                                             pr_terminal := terminal |}]) st)
      end
  end.

(** The [.then] continuation of [startCLI]. *)
Definition startCLI_then (p : Probe) (available : bool) (now : N) (st : Server) : Server :=
  if available then
    let st := pty_write p.(pr_terminal).(ptyProcess) (p.(pr_type) +:+ CR) st in
    let st := set_cliProcesses (insert p.(pr_terminalId)
                {| type := p.(pr_type); active := true; startedAt := now |}) st in
    emit p.(pr_socket)
      (cli_started p.(pr_terminalId) p.(pr_type)
         (p.(pr_type) +:+ " CLI started successfully")) st
  else
    emit p.(pr_socket)
      (cli_error (p.(pr_type) +:+ " CLI not installed")
         (Some (if bool_decide (p.(pr_type) = "gemini")
                then "Install with: npm install -g @google/gemini-cli"
                else "Install with: npm install -g @anthropic-ai/claude-cli"))) st.

(** The [.catch] continuation of [startCLI]. *)
Definition startCLI_catch (p : Probe) (message : string) (st : Server) : Server :=
  emit p.(pr_socket) (cli_error message None) st.

(** The [k]-th pending probe is settled by its child. *)
Definition settle (k : nat) (spawn : string → list string → Spawned) (now : N)
    (st : Server) : Server :=
  match st.(probes) !! k with
  | None => st
  | Some p =>
      match checkCLIAvailability spawn p.(pr_type) with
      | Pending => st
      | Fulfilled available => startCLI_then p available now (set_probes (delete k) st)
      | Rejected reason => startCLI_catch p reason (set_probes (delete k) st)
      end
  end.

Definition sendCLICommand (sock : Socket) (data : option CommandData) (st : Server) : Outcome :=
  match data with
  | None => Thrown TypeError
  | Some data =>
      match st.(terminals) !! data.(m_terminalId), st.(cliProcesses) !! data.(m_terminalId) with
      | Some terminal, Some cliProcess =>
          let enrichedCommand := buildEnrichedPrompt data.(m_command) data.(m_context) in
          let st := pty_write terminal.(ptyProcess) (enrichedCommand +:+ CR) st in
          Returned (emit sock (cli_command_sent data.(m_terminalId) enrichedCommand
                                 cliProcess.(type)) st)
      | _, _ => Returned (emit sock (cli_error "CLI not active" None) st)
      end
  end.

Definition stopCLI (sock : Socket) (data : option StopData) (st : Server) : Outcome :=
  match data with
  | None => Thrown TypeError
  | Some data =>
      match st.(cliProcesses) !! data.(p_terminalId) with
      | Some cliProcess =>
          let st :=
            match st.(terminals) !! data.(p_terminalId) with
            | Some terminal => pty_write terminal.(ptyProcess) ETX st
            | None => st
            end in
          let st := set_cliProcesses (delete data.(p_terminalId)) st in
          Returned (emit sock (cli_stopped data.(p_terminalId) cliProcess.(type)) st)
      | None => Returned st
      end
  end.

(** [cleanup(socket)]: the loop body, then the loop over the entries of
    [this.terminals].  The body deletes only the entry it is visiting, so the
    loop sees every entry the map had when it started. *)
Definition cleanup_entry (sock : Socket) (st : Server) (e : string * Terminal) : Server :=
  let '(terminalId, terminal) := e in
  if decide (terminal.(socket) = sock) then
    let st := pty_kill terminal.(ptyProcess) st in
    let st := set_terminals (delete terminalId) st in
    set_cliProcesses (delete terminalId) st
  else st.

Definition cleanup (sock : Socket) (st : Server) : Server :=
  foldl (cleanup_entry sock) st (map_to_list st.(terminals)).

(** ** The event loop *)

Inductive Event :=
  | ev_terminal_create (sock : Socket) (data : option CreateData) (now : N)
  | ev_terminal_input (sock : Socket) (data : option InputData)
  | ev_terminal_resize (sock : Socket) (data : option ResizeData)
  | ev_cli_start (sock : Socket) (data : option StartData)
  | ev_cli_command (sock : Socket) (data : option CommandData)
  | ev_cli_stop (sock : Socket) (data : option StopData)
  | ev_disconnect (sock : Socket)
  | ev_pty_data (h : Handle) (data : string)
  | ev_pty_exit (h : Handle) (exitCode : Z) (signal : option Z)
  | ev_probe (k : nat) (spawn : string → list string → Spawned) (now : N).

Definition handle (ev : Event) (st : Server) : Outcome :=
  match ev with
  | ev_terminal_create sock data now => Returned (createTerminal sock data now st).2
  | ev_terminal_input _ data => on_terminal_input data st
  | ev_terminal_resize _ data => on_terminal_resize data st
  | ev_cli_start sock data => startCLI sock data st
  | ev_cli_command sock data => sendCLICommand sock data st
  | ev_cli_stop sock data => stopCLI sock data st
  | ev_disconnect sock => Returned (cleanup sock st)
  | ev_pty_data h data => Returned (onData h data st)
  | ev_pty_exit h exitCode signal => Returned (onExit h exitCode signal st)
  | ev_probe k spawn now => Returned (settle k spawn now st)
  end.

(** Running a list of events, stopping at the first throw. *)
Fixpoint run (evs : list Event) (st : Server) : Outcome :=
  match evs with
  | [] => Returned st
  | ev :: evs =>
      match handle ev st with
      | Returned st => run evs st
      | Thrown e => Thrown e
      end
  end.

(** The states the server can be in: the constructor's state, and what a
    handler that returns leaves. *)
Inductive reachable : Server → Prop :=
  | reachable_new root plat sh : reachable (new_server root plat sh)
  | reachable_step ev st st' :
      reachable st → handle ev st = Returned st' → reachable st'.

(** ** Notions the properties are stated with *)

(** A context segment as [buildEnrichedPrompt] emits it: the line built by
    [mk] when the field is truthy, nothing otherwise. *)
Definition segment (mk : string → string) (v : Field) : string :=
  if field_truthy v then mk (interpolate v) else EmptyString.

(** The enriched command read with "emitted if and only if the field is
    present": a field that is there is rendered, whatever it holds. *)
Definition present (v : Field) : bool :=
  match v with
  | undefined => false
  | _ => true
  end.

Definition present_segment (mk : string → string) (v : Field) : string :=
  if present v then mk (interpolate v) else EmptyString.

Definition present_prompt (command : string) (ctx : Context) : string :=
  present_segment currentFile_line ctx.(currentFile)
  +:+ present_segment selectedCode_block ctx.(selectedCode)
  +:+ present_segment projectInfo_line ctx.(projectInfo)
  +:+ command.

(** Process [h] is live for identifier [tid]: it was spawned for a session
    named [tid] and has not exited. *)
Definition live_for (st : Server) (tid : string) (h : Handle) : Prop :=
  ∃ p, st.(ptys) !! h = Some p ∧ p.(cb_terminalId) = tid ∧ p.(pty_exited) = false.

(** At most one live process per session identifier. *)
Definition one_live_process_per_id (st : Server) : Prop :=
  ∀ tid h1 h2, live_for st tid h1 → live_for st tid h2 → h1 = h2.

(** What the registry does guarantee: the entry under [tid] is named [tid],
    and its process is in the table, was spawned for [tid] and the entry's
    socket, and has not exited. *)
Definition registry_wf (st : Server) : Prop :=
  ∀ tid t, st.(terminals) !! tid = Some t →
    t.(id) = tid ∧
    ∃ p, st.(ptys) !! t.(ptyProcess) = Some p ∧ p.(pty_exited) = false ∧
         p.(cb_terminalId) = tid ∧ p.(cb_socket) = t.(socket).

(** The sessions a connection owns, and the number of termination signals
    sent so far. *)
Definition owned_sessions (sock : Socket) (st : Server) : list (string * Terminal) :=
  filter (λ e, e.2.(socket) = sock) (map_to_list st.(terminals)).

Definition total_signals (st : Server) : nat :=
  sum_list_with pty_signals st.(ptys).

(** A call on a process that leaves its exit flag and its callbacks alone. *)
Definition keeps_callbacks (f : Pty → Pty) : Prop :=
  ∀ p, pty_exited (f p) = pty_exited p
     ∧ cb_terminalId (f p) = cb_terminalId p
     ∧ cb_socket (f p) = cb_socket p.

(** [cleanup] in one step: the keys of the owned entries leave both maps and
    each of their processes gets one signal. *)
Definition delete_all {A} (ks : list string) (m : gmap string A) : gmap string A :=
  foldl (λ m k, delete k m) m ks.

Definition kill_all (hs : list Handle) (ps : list Pty) : list Pty :=
  foldl (λ ps h, alter signalled h ps) ps hs.

Definition cleanup_batch (es : list (string * Terminal)) (st : Server) : Server :=
  set_cliProcesses (delete_all es.*1)
    (set_terminals (delete_all es.*1)
       (set_ptys (kill_all (ptyProcess <$> es.*2)) st)).

(** The first event of a child, which is the one that settles the promise. *)
Definition first_event (evs : list ChildEvent) : option ChildEvent := head evs.

(** ** Sample inputs and runs *)

(** A context whose current file is there but empty. *)
Definition only_empty_file : Context :=
  {| currentFile := text EmptyString; selectedCode := undefined;
     projectInfo := undefined |}.

Definition fresh_server : Server := new_server "/workspace" "linux" None.

(** The state a run of events leaves ([fresh_server] if a handler threw). *)
Definition state_after (evs : list Event) : Server :=
  match run evs fresh_server with
  | Returned st => st
  | Thrown _ => fresh_server
  end.

(** The payload the front end sends on connect: every client names its
    terminal [main-terminal]. *)
Definition create_named (name : string) : option CreateData :=
  Some {| c_terminalId := Some name; c_cols := Some 120%N; c_rows := Some 30%N;
          c_cwd := None |}.

(** A machine on which every CLI answers the version query with status 0. *)
Definition installed : string → list string → Spawned :=
  λ _ _, spawn_child [child_close (Some 0%Z)].

(** [child_process.spawn] on a machine without any CLI: the empty file name
    is refused with a throw before a process is made, every other name gives
    a child that reports the missing binary. *)
Definition nothing_installed : string → list string → Spawned :=
  λ file _,
    if bool_decide (file = EmptyString)
    then spawn_threw "The argument 'file' cannot be empty. Received ''"
    else spawn_child [child_error; child_close (Some (-2)%Z)].

(** Two clients connect one after the other. *)
Definition two_clients : list Event :=
  [ev_terminal_create 1 (create_named "main-terminal") 1700000000000;
   ev_terminal_create 2 (create_named "main-terminal") 1700000005000].

(** A client starts the gemini CLI in its terminal, then the shell exits. *)
Definition exit_after_start : list Event :=
  [ev_terminal_create 1 (create_named "main-terminal") 1700000000000;
   ev_cli_start 1 (Some {| s_type := "gemini"; s_terminalId := "main-terminal" |});
   ev_probe 0 installed 1700000000100;
   ev_pty_exit 0 0 None].

(** A client opens a terminal and disconnects. *)
Definition connect_disconnect : list Event :=
  [ev_terminal_create 1 (create_named "main-terminal") 1700000000000;
   ev_disconnect 1].

(** Connection 1 owns [a] (with a CLI overlay) and [b]; connection 2 owns
    [c] (with a CLI overlay). *)
Definition three_sessions : list Event :=
  [ev_terminal_create 1 (create_named "a") 1700000000000;
   ev_terminal_create 1 (create_named "b") 1700000000001;
   ev_terminal_create 2 (create_named "c") 1700000000002;
   ev_cli_start 1 (Some {| s_type := "claude"; s_terminalId := "a" |});
   ev_cli_start 2 (Some {| s_type := "gemini"; s_terminalId := "c" |});
   ev_probe 0 installed 1700000000100;
   ev_probe 0 installed 1700000000101].

(** ** Notions for the properties of whole runs *)

(** [p'] is a later state of the process [p]: the spawn arguments and the
    callbacks are the same, an exit is never undone, and the signals and the
    written input only accumulate. *)
Definition pty_later (p p' : Pty) : Prop :=
  p'.(pty_shell) = p.(pty_shell)
  ∧ p'.(pty_cwd) = p.(pty_cwd)
  ∧ p'.(cb_terminalId) = p.(cb_terminalId)
  ∧ p'.(cb_socket) = p.(cb_socket)
  ∧ (p.(pty_exited) = true → p'.(pty_exited) = true)
  ∧ p.(pty_signals) ≤ p'.(pty_signals)
  ∧ p.(pty_input) `prefix_of` p'.(pty_input).

(** Every process of [st] is still in the table of [st'], under the same
    handle, in a later state. *)
Definition table_later (st st' : Server) : Prop :=
  ∀ h p, st.(ptys) !! h = Some p → ∃ p', st'.(ptys) !! h = Some p' ∧ pty_later p p'.

(** A process was spawned for the identifier at some time. *)
Definition spawned_for (st : Server) (tid : string) : Prop :=
  ∃ h p, st.(ptys) !! h = Some p ∧ p.(cb_terminalId) = tid.

(** What holds of the overlay registry, the pending probes and the process
    table in every state the server reaches. *)
Definition overlays_active (st : Server) : Prop :=
  ∀ k c, st.(cliProcesses) !! k = Some c → c.(active) = true.

Definition overlays_spawned (st : Server) : Prop :=
  ∀ k c, st.(cliProcesses) !! k = Some c → spawned_for st k.

Definition probes_wf (st : Server) : Prop :=
  ∀ pr, pr ∈ st.(probes) →
    ∃ p, st.(ptys) !! pr.(pr_terminal).(ptyProcess) = Some p
         ∧ p.(cb_terminalId) = pr.(pr_terminalId).

Definition table_named (st : Server) : Prop :=
  Forall (λ p, p.(cb_terminalId) ≠ EmptyString) st.(ptys).

Definition server_inv (st : Server) : Prop :=
  registry_wf st ∧ probes_wf st ∧ overlays_spawned st ∧ table_named st
  ∧ overlays_active st.

(** ** The HTTP routes and the directory listing *)

(** What awaiting a promise of the file system gives: its value, or the
    error it was rejected with. *)
Inductive Awaited (A : Type) :=
  | resolved (a : A)
  | rejected (message : string).
Arguments resolved {A} a.
Arguments rejected {A} message.

(** What [fs.stat] reports of a path, as far as the server reads it. *)
Record Stats := {
  stat_size : N;
  stat_mtime : N;
  stat_isDirectory : bool
}.

(** The library functions the routes call: [path] and [fs-extra] as they
    behave at the time of the request, and [String.prototype.localeCompare]. *)
Record Node := {
  path_join : string → string → string;
  path_relative : string → string → string;
  path_dirname : string → string;
  fs_readdir : string → Awaited (list string);
  fs_stat : string → Awaited Stats;
  fs_readFile : string → Awaited string;
  fs_ensureDir : string → Awaited unit;
  fs_writeFile : string → option string → Awaited unit;
  localeCompare : string → string → Z
}.

Inductive ItemType := directory | file.

(** An element of the array [getDirectoryContents] builds. *)
Record Item := {
  item_name : string;
  item_path : string;
  item_type : ItemType;
  item_size : N;
  item_modified : N
}.

(** The comparator handed to [sort]: entries of different type are ordered
    by type, directories first; entries of the same type by name. *)
Definition compare_items (node : Node) (a b : Item) : Z :=
  match a.(item_type), b.(item_type) with
  | directory, file => (-1)%Z
  | file, directory => 1%Z
  | _, _ => node.(localeCompare) a.(item_name) b.(item_name)
  end.

(** [Array.prototype.sort(compare)], which is stable: each element, from the
    last to the first, is put before the first element of the sorted rest
    that it does not come after. *)
Fixpoint sort_insert {A} (compare : A → A → Z) (x : A) (l : list A) : list A :=
  match l with
  | [] => [x]
  | y :: l' =>
      if (compare x y <=? 0)%Z then x :: y :: l'
      else y :: sort_insert compare x l'
  end.

Definition sort {A} (compare : A → A → Z) (l : list A) : list A :=
  foldr (sort_insert compare) [] l.

(** The [for] loop of [getDirectoryContents]: one [stat] per entry, in
    order; the first failure rejects the whole call. *)
Fixpoint stat_items (node : Node) (root dirPath : string) (items : list string)
    : Awaited (list Item) :=
  match items with
  | [] => resolved []
  | item :: items =>
      let fullPath := node.(path_join) dirPath item in
      match node.(fs_stat) fullPath with
      | rejected message => rejected message
      | resolved stats =>
          match stat_items node root dirPath items with
          | rejected message => rejected message
          | resolved result =>
              resolved ({| item_name := item;
                           item_path := node.(path_relative) root fullPath;
                           item_type := if stats.(stat_isDirectory) then directory
                                        else file;
                           item_size := stats.(stat_size);
                           item_modified := stats.(stat_mtime) |} :: result)
          end
      end
  end.

Definition getDirectoryContents (node : Node) (root dirPath : string)
    : Awaited (list Item) :=
  match node.(fs_readdir) dirPath with
  | rejected message => rejected message
  | resolved items =>
      match stat_items node root dirPath items with
      | rejected message => rejected message
      | resolved result => resolved (sort (compare_items node) result)
      end
  end.

(** The JSON bodies the routes answer with, and the answer. *)
Inductive Body :=
  | body_error (error : string) (suggestion : option string)
  | body_listing (items : list Item)
  | body_file (content : string) (size modified : N) (path : string)
  | body_saved (path : string)
  | body_health (terminals : nat) (workspace : string) (timestamp : N).

Record Response := { status : N; body : Body }.

(** [res.json(body)] and [res.status(code).json(body)]. *)
Definition json (b : Body) : Response := {| status := 200; body := b |}.
Definition status_json (code : N) (b : Body) : Response := {| status := code; body := b |}.

(** GET /api/health; the constant [status: 'ok'] of the body is left
    implicit in [body_health], and the timestamp is the clock reading. *)
Definition route_health (now : N) (st : Server) : Response :=
  json (body_health (size st.(terminals)) st.(workspaceRoot) now).

(** GET /api/files, with the [dir] query parameter. *)
Definition route_files (node : Node) (root : string) (dir : option string) : Response :=
  let dir := default EmptyString dir in
  let fullPath := node.(path_join) root dir in
  match getDirectoryContents node root fullPath with
  | resolved files => json (body_listing files)
  | rejected message => status_json 500 (body_error message None)
  end.

(** GET /api/file, with the [path] query parameter. *)
Definition route_file_get (node : Node) (root : string) (relativePath : option string)
    : Response :=
  if negb (truthy relativePath) then
    status_json 400 (body_error "Path parameter required" None)
  else
    let relativePath := or_string relativePath EmptyString in
    let filePath := node.(path_join) root relativePath in
    match node.(fs_readFile) filePath with
    | rejected _ => status_json 404 (body_error "File not found" None)
    | resolved content =>
        match node.(fs_stat) filePath with
        | rejected _ => status_json 404 (body_error "File not found" None)
        | resolved stats =>
            json (body_file content stats.(stat_size) stats.(stat_mtime) relativePath)
        end
    end.

(** The request body of POST /api/file as the route reads it; [content] is
    handed to [writeFile] as it comes, also when it is missing. *)
Record FileBody := { fb_path : option string; fb_content : option string }.

(** The message of the [TypeError] of destructuring [undefined]. *)
Definition cannot_destructure (property object : string) : string :=
  "Cannot destructure property '" +:+ property +:+ "' of '" +:+ object
  +:+ "' as it is undefined.".

(** POST /api/file.  Without a request body the destructuring throws inside
    the [try], and the [catch] answers 500. *)
Definition route_file_post (node : Node) (root : string) (reqBody : option FileBody)
    : Response :=
  match reqBody with
  | None => status_json 500 (body_error (cannot_destructure "path" "req.body") None)
  | Some reqBody =>
      let relativePath := reqBody.(fb_path) in
      let content := reqBody.(fb_content) in
      if negb (truthy relativePath) then
        status_json 400 (body_error "Path parameter required" None)
      else
        let relativePath := or_string relativePath EmptyString in
        let filePath := node.(path_join) root relativePath in
        match node.(fs_ensureDir) (node.(path_dirname) filePath) with
        | rejected message => status_json 500 (body_error message None)
        | resolved _ =>
            match node.(fs_writeFile) filePath content with
            | rejected message => status_json 500 (body_error message None)
            | resolved _ => json (body_saved relativePath)
            end
        end
  end.

(** A listing has its directories first. *)
Definition directories_first (l : list Item) : Prop :=
  ∃ ds fs, l = ds ++ fs
    ∧ Forall (λ i, i.(item_type) = directory) ds
    ∧ Forall (λ i, i.(item_type) = file) fs.

(** ** The hosted-model client ([OpenRouterAI]) *)

Record OpenRouterAI := {
  apiKey : string;
  baseURL : string;
  model : string;
  maxTokens : N
}.

(** [new OpenRouterAI(apiKey)]. *)
Definition new_OpenRouterAI (key : string) : OpenRouterAI :=
  {| apiKey := key; baseURL := "https://openrouter.ai/api/v1";
     model := "openai/chatgpt-nano-5"; maxTokens := 4096 |}.

(** The server's constructor: a client only when the key is set. *)
Definition configure_ai (OPENROUTER_API_KEY : option string) : option OpenRouterAI :=
  match OPENROUTER_API_KEY with
  | Some (String c s) => Some (new_OpenRouterAI (String c s))
  | _ => None
  end.

Record ChatMessage := { role : string; content : option string }.

(** The options the callers in this repository pass: at most [maxTokens];
    the sampling parameters then take their defaults, written here as the
    JSON body shows them. *)
Record ChatOptions := { opt_maxTokens : option N }.

Record ChatRequest := {
  rq_url : string;
  rq_authorization : string;
  rq_model : string;
  rq_messages : list ChatMessage;
  rq_max_tokens : N;
  rq_temperature : string;
  rq_top_p : string;
  rq_frequency_penalty : string;
  rq_presence_penalty : string;
  rq_stream : bool
}.

(** The completion as far as [chat] reads it. *)
Record ChoiceMessage := { cm_content : option string }.
Record Choice := { ch_message : option ChoiceMessage }.
Record Completion := {
  cp_choices : option (list Choice);
  cp_usage : option string;
  cp_model : option string
}.

Record HttpResponse := {
  resp_ok : bool;
  resp_status : N;
  resp_text : Awaited string;
  resp_json : Awaited Completion
}.

(** What the [catch] of [chat] catches: an error with its message, or the
    [TypeError] of reading the named property of [undefined]. *)
Inductive Caught :=
  | error_with (message : string)
  | type_error_reading (property : string).

Inductive ChatResult :=
  | chat_success (content usage model : option string)
  | chat_failure (error : Caught).

(** The request [chat] hands to [fetch]. *)
Definition chat_request (api : OpenRouterAI) (messages : list ChatMessage)
    (options : ChatOptions) : ChatRequest :=
  {| rq_url := api.(baseURL) +:+ "/chat/completions";
     rq_authorization := "Bearer " +:+ api.(apiKey);
     rq_model := api.(model);
     rq_messages := messages;
     rq_max_tokens := or_number options.(opt_maxTokens) api.(maxTokens);
     rq_temperature := "0.7"; rq_top_p := "0.9";
     rq_frequency_penalty := "0"; rq_presence_penalty := "0";
     rq_stream := false |}.

(** The body of the [try] block of [chat]: a value or a throw. *)
Definition chat_try (fetch : ChatRequest → Awaited HttpResponse) (api : OpenRouterAI)
    (messages : list ChatMessage) (options : ChatOptions) : Caught + ChatResult :=
  match fetch (chat_request api messages options) with
  | rejected message => inl (error_with message)
  | resolved response =>
      if negb response.(resp_ok) then
        match response.(resp_text) with
        | rejected message => inl (error_with message)
        | resolved error =>
            inl (error_with ("OpenRouter API error: "
                             +:+ number_to_string response.(resp_status)
                             +:+ " - " +:+ error))
        end
      else
        match response.(resp_json) with
        | rejected message => inl (error_with message)
        | resolved data =>
            match data.(cp_choices) with
            | None => inl (type_error_reading "0")
            | Some [] => inl (type_error_reading "message")
            | Some (choice :: _) =>
                match choice.(ch_message) with
                | None => inl (type_error_reading "content")
                | Some message =>
                    inr (chat_success message.(cm_content) data.(cp_usage)
                           data.(cp_model))
                end
            end
        end
  end.

(** [chat(messages, options = {})]: the [catch] turns every throw into a
    failure result. *)
Definition chat (fetch : ChatRequest → Awaited HttpResponse) (api : OpenRouterAI)
    (messages : list ChatMessage) (options : option ChatOptions) : ChatResult :=
  match chat_try fetch api messages (default {| opt_maxTokens := None |} options) with
  | inr result => result
  | inl error => chat_failure error
  end.

(** The body of POST /api/ai/chat as the route reads it. *)
Record ChatBody := { cb_message : option string; cb_context : option Context }.

(** What POST /api/ai/chat answers. *)
Inductive AiBody :=
  | ai_error (error : Caught) (suggestion : option string)
  | ai_result (r : ChatResult).

Record AiResponse := { ai_status : N; ai_body : AiBody }.

Definition route_ai_chat (fetch : ChatRequest → Awaited HttpResponse)
    (openRouterAPI : option OpenRouterAI) (reqBody : option ChatBody) : AiResponse :=
  match openRouterAPI with
  | None =>
      {| ai_status := 503;
         ai_body := ai_error (error_with "OpenRouter API not configured")
                      (Some "Set OPENROUTER_API_KEY environment variable") |}
  | Some api =>
      match reqBody with
      | None => {| ai_status := 500; ai_body := ai_error (type_error_reading "message") None |}
      | Some reqBody =>
          {| ai_status := 200;
             ai_body := ai_result
               (chat fetch api [{| role := "user"; content := reqBody.(cb_message) |}]
                  (Some {| opt_maxTokens := Some 2048%N |})) |}
      end
  end.

(** A workspace holding the directory [b] and the ten-byte file [a.txt]. *)
Definition sample_node : Node :=
  {| path_join := λ a b, if bool_decide (b = EmptyString) then a else a +:+ "/" +:+ b;
     path_relative := λ from to, String.substring (S (String.length from))
                                   (String.length to) to;
     path_dirname := λ p, p;
     fs_readdir := λ p, if bool_decide (p = "/workspace") then resolved ["a.txt"; "b"]
                        else rejected "ENOENT: no such file or directory";
     fs_stat := λ p,
       if bool_decide (p = "/workspace/a.txt")
       then resolved {| stat_size := 10; stat_mtime := 1700000000000;
                        stat_isDirectory := false |}
       else if bool_decide (p = "/workspace/b")
       then resolved {| stat_size := 4096; stat_mtime := 1700000000500;
                        stat_isDirectory := true |}
       else rejected "ENOENT: no such file or directory";
     fs_readFile := λ p, if bool_decide (p = "/workspace/a.txt") then resolved "0123456789"
                         else rejected "EISDIR: illegal operation on a directory";
     fs_ensureDir := λ _, resolved ();
     fs_writeFile := λ p _, if bool_decide (p = "/workspace/b")
                            then rejected "EISDIR: illegal operation on a directory"
                            else resolved ();
     localeCompare := λ a b, match String.compare a b with
                             | Lt => (-1)%Z | Eq => 0%Z | Gt => 1%Z
                             end |}.

(** ** Per-client file watching ([watchFile]) *)







(** The comparator does not put [a] after [b]. *)
Definition item_before (node : Node) (a b : Item) : Prop :=
  (compare_items node a b ≤ 0)%Z.

(** [localeCompare] orders names consistently: of two names one does not
    come after the other, and not coming after is transitive. *)
Definition consistent_names (node : Node) : Prop :=
  (∀ a b, (0 < node.(localeCompare) a b)%Z → (node.(localeCompare) b a ≤ 0)%Z)
  ∧ (∀ a b c, (node.(localeCompare) a b ≤ 0)%Z → (node.(localeCompare) b c ≤ 0)%Z →
              (node.(localeCompare) a c ≤ 0)%Z).

(** The event is the disconnect of a connection. *)
Definition is_disconnect (ev : Event) : bool :=
  match ev with
  | ev_disconnect _ => true
  | _ => false
  end.

(** * Properties *)

(** ** Strings *)

Lemma append_nil_l (b : string) : EmptyString +:+ b = b.
Proof. reflexivity. Qed.

Lemma append_cons (x : Ascii.ascii) (a b : string) :
  String x a +:+ b = String x (a +:+ b).
Proof. reflexivity. Qed.

Lemma append_assoc (a b c : string) : (a +:+ b) +:+ c = a +:+ (b +:+ c).
Proof.
  induction a as [|x a IH]; [reflexivity|].
  by rewrite !append_cons, IH.
Qed.

Lemma number_to_string_inj (m n : N) :
  number_to_string m = number_to_string n → m = n.
Proof.
  unfold number_to_string. intros E.
  apply DecimalN.Unsigned.to_uint_inj.
  assert (Some (N.to_uint m) = Some (N.to_uint n)) as [= ->]; [|done].
  by rewrite <- !NilEmpty.usu, E.
Qed.

Lemma generated_id_inj (m n : N) : generated_id m = generated_id n → m = n.
Proof.
  unfold generated_id. intros E%(inj (String.app _)).
  by apply number_to_string_inj.
Qed.

(** ** The enriched prompt *)

Example buildEnrichedPrompt_plain :
  buildEnrichedPrompt "ls" None = "ls".
Proof. reflexivity. Qed.

Lemma buildEnrichedPrompt_segments (command : string) (ctx : Context) :
  buildEnrichedPrompt command (Some ctx) =
    segment currentFile_line ctx.(currentFile)
    +:+ segment selectedCode_block ctx.(selectedCode)
    +:+ segment projectInfo_line ctx.(projectInfo)
    +:+ command.
Proof.
  unfold buildEnrichedPrompt, segment. simpl.
  destruct (field_truthy (currentFile ctx)), (field_truthy (selectedCode ctx)),
    (field_truthy (projectInfo ctx)); by rewrite ?append_nil_l, ?append_assoc.
Qed.

(** C5, as stated, fails: a current-file field that is present but holds the
    empty string yields no current-file line. *)
Lemma C5_present_empty_field_not_emitted :
  present only_empty_file.(currentFile) = true
  ∧ buildEnrichedPrompt "explain" (Some only_empty_file) = "explain"
  ∧ present_prompt "explain" only_empty_file
    = currentFile_line EmptyString +:+ "explain"
  ∧ buildEnrichedPrompt "explain" (Some only_empty_file)
    ≠ present_prompt "explain" only_empty_file.
Proof. repeat split; [vm_compute; discriminate]. Qed.

(** C5 (amended): the enriched command is the current-file line, then the
    fenced selected-code block, then the project line, then exactly the raw
    command; a segment is emitted if and only if its field holds a non-empty
    string (a missing, null or empty field emits nothing), and a missing
    context emits none.  With "a.ts", "x=1", "P" and "explain" the text is
    the four parts in that order. *)
Theorem C5_enriched_prompt_order (command : string) (ctx : Context) :
  buildEnrichedPrompt command (Some ctx) =
    segment currentFile_line ctx.(currentFile)
    +:+ segment selectedCode_block ctx.(selectedCode)
    +:+ segment projectInfo_line ctx.(projectInfo)
    +:+ command
  ∧ buildEnrichedPrompt command None = command
  ∧ (∀ mk c s, segment mk (text (String c s)) = mk (String c s))
  ∧ (∀ mk, segment mk undefined = EmptyString
           ∧ segment mk null = EmptyString
           ∧ segment mk (text EmptyString) = EmptyString)
  ∧ buildEnrichedPrompt "explain"
      (Some {| currentFile := text "a.ts"; selectedCode := text "x=1";
               projectInfo := text "P" |})
    = currentFile_line "a.ts" +:+ selectedCode_block "x=1" +:+ projectInfo_line "P"
      +:+ "explain".
Proof.
  split; [apply buildEnrichedPrompt_segments|].
  repeat split.
Qed.

(** ** Commands to a session without an overlay *)

(** C6: a command for an identifier that has no session or no overlay is
    answered with the [CLI not active] error on the requesting socket, and
    nothing else happens: no process is written to, no registry changes. *)
Theorem C6_sendCLICommand_not_active (sock : Socket) (data : CommandData) (st : Server) :
  st.(terminals) !! data.(m_terminalId) = None
  ∨ st.(cliProcesses) !! data.(m_terminalId) = None →
  ∃ st', sendCLICommand sock (Some data) st = Returned st'
    ∧ st'.(outbox) = st.(outbox) ++ [(sock, cli_error "CLI not active" None)]
    ∧ st'.(ptys) = st.(ptys)
    ∧ st'.(terminals) = st.(terminals)
    ∧ st'.(cliProcesses) = st.(cliProcesses)
    ∧ st'.(probes) = st.(probes).
Proof.
  intros H. exists (emit sock (cli_error "CLI not active" None) st).
  split; [|done]. unfold sendCLICommand.
  destruct H as [-> | H]; [done|].
  rewrite H. by destruct (terminals st !! m_terminalId data).
Qed.

Lemma C6_witness :
  ∃ st', sendCLICommand 1
      (Some {| m_terminalId := "main-terminal"; m_command := "explain"; m_context := None |})
      (new_server "/ws" "linux" None) = Returned st'
    ∧ st'.(outbox) = [(1, cli_error "CLI not active" None)]
    ∧ st'.(ptys) = []
    ∧ st'.(terminals) = ∅
    ∧ st'.(cliProcesses) = ∅
    ∧ st'.(probes) = [].
Proof.
  apply (C6_sendCLICommand_not_active 1
           {| m_terminalId := "main-terminal"; m_command := "explain"; m_context := None |}
           (new_server "/ws" "linux" None)).
  left. reflexivity.
Defined.

(** ** The availability probe *)

Lemma settled_stays (p : Promise bool) (evs : list ChildEvent) :
  p ≠ Pending → foldl on_child p evs = p.
Proof.
  revert p. induction evs as [|e evs IH]; intros p Hp; [done|].
  simpl. rewrite IH; by destruct e, p.
Qed.

(** C8, as stated, fails: for the empty kind [spawn] throws inside the
    executor, so the promise is rejected, not resolved to [false]; the
    [.catch] of [startCLI] then reports the message. *)
Lemma C8_empty_kind_is_rejected :
  checkCLIAvailability nothing_installed EmptyString
  = Rejected "The argument 'file' cannot be empty. Received ''"
  ∧ checkCLIAvailability nothing_installed EmptyString ≠ Fulfilled false
  ∧ (state_after
       [ev_terminal_create 1 (create_named "main-terminal") 1700000000000;
        ev_cli_start 1 (Some {| s_type := EmptyString; s_terminalId := "main-terminal" |});
        ev_probe 0 nothing_installed 1700000000100]).(outbox)
    = [(1, terminal_created "main-terminal" "bash" "/workspace");
       (1, cli_error "The argument 'file' cannot be empty. Received ''" None)].
Proof. repeat split; [discriminate]. Qed.

(** C8 (amended): when [spawn] hands back a child, the promise is settled by
    the child's first event: fulfilled with [true] exactly when that event
    is a close with status zero, with [false] on an error event and on any
    other status, and it is never rejected; a binary that does not exist (an
    error event, then a close with a negative status) gives [false].  When
    [spawn] throws, as for the empty name, the promise is rejected with the
    message thrown. *)
Theorem C8_checkCLIAvailability (spawn : string → list string → Spawned)
    (type : string) :
  checkCLIAvailability spawn type =
    match spawn type ["--version"] with
    | spawn_threw message => Rejected message
    | spawn_child events =>
        match first_event events with
        | None => Pending
        | Some (child_close code) => Fulfilled (bool_decide (code = Some 0%Z))
        | Some child_error => Fulfilled false
        end
    end
  ∧ (∀ events, spawn type ["--version"] = spawn_child events →
       (checkCLIAvailability spawn type = Fulfilled true
        ↔ first_event events = Some (child_close (Some 0%Z)))
       ∧ ∀ reason, checkCLIAvailability spawn type ≠ Rejected reason)
  ∧ (∀ message, spawn type ["--version"] = spawn_threw message →
       checkCLIAvailability spawn type = Rejected message)
  ∧ (type ≠ EmptyString → checkCLIAvailability nothing_installed type = Fulfilled false).
Proof.
  assert (∀ events, foldl on_child Pending events =
    match first_event events with
    | None => Pending
    | Some (child_close code) => Fulfilled (bool_decide (code = Some 0%Z))
    | Some child_error => Fulfilled false
    end) as E.
  { intros [|[code|] evs]; simpl; [done|..]; by rewrite settled_stays. }
  unfold checkCLIAvailability. split; [|split; [|split]].
  - destruct (spawn type ["--version"]); [apply E|done].
  - intros events ->. rewrite E.
    destruct (first_event events) as [[code|]|]; repeat split; try done.
    + intros [= Hc]. apply bool_decide_eq_true in Hc. by subst.
    + intros [= ->]. done.
  - intros message ->. done.
  - intros Htype. unfold nothing_installed.
    rewrite bool_decide_eq_false_2 by done. done.
Qed.

(** ** Generated identifiers *)

(** C9, as stated, fails: two creates without an identifier at the same
    clock reading get the same identifier while the first session is still
    live; the second overwrites the entry of the first, whose process goes
    on running. *)
Lemma C9_same_clock_same_identifier :
  let st0 := new_server "/ws" "linux" None in
  let r1 := createTerminal 1 None 1700000000000 st0 in
  let r2 := createTerminal 2 None 1700000000000 r1.2 in
  r1.1 = "terminal_1700000000000"
  ∧ r2.1 = r1.1
  ∧ ptyProcess <$> r1.2.(terminals) !! r1.1 = Some 0
  ∧ ptyProcess <$> r2.2.(terminals) !! r1.1 = Some 1
  ∧ pty_exited <$> r2.2.(ptys) !! 0 = Some false
  ∧ pty_exited <$> r2.2.(ptys) !! 1 = Some false.
Proof. vm_compute. repeat split. Qed.

(** C9 (amended): without an identifier in the payload (none, or the empty
    string) the identifier is [terminal_] followed by the clock reading,
    whatever the registry holds; two generated identifiers are equal
    exactly when the clock readings are. *)
Theorem C9_generated_identifier (sock : Socket) (data : option CreateData) (now : N)
    (st : Server) :
  truthy (default empty_create data).(c_terminalId) = false →
  (createTerminal sock data now st).1 = generated_id now
  ∧ (createTerminal sock data now st).2.(terminals) !! generated_id now
    = Some {| id := generated_id now; ptyProcess := length st.(ptys);
              socket := sock; createdAt := now |}
  ∧ ∀ now', generated_id now = generated_id now' ↔ now = now'.
Proof.
  intros H. unfold createTerminal.
  assert (or_string (c_terminalId (default empty_create data)) (generated_id now)
          = generated_id now) as ->.
  { by destruct (c_terminalId (default empty_create data)) as [[|c s]|]. }
  split; [done|]. split; [simpl; by rewrite lookup_insert_eq|].
  intros now'. split; [apply generated_id_inj | by intros ->].
Qed.

Lemma C9_witness :
  (createTerminal 1 None 5 (new_server "/ws" "linux" None)).1 = generated_id 5
  ∧ (createTerminal 1 None 5 (new_server "/ws" "linux" None)).2.(terminals) !! generated_id 5
    = Some {| id := generated_id 5; ptyProcess := 0; socket := 1; createdAt := 5 |}
  ∧ ∀ now', generated_id 5 = generated_id now' ↔ 5%N = now'.
Proof.
  apply (C9_generated_identifier 1 None 5 (new_server "/ws" "linux" None)).
  reflexivity.
Defined.

(** ** The registry invariant *)

Lemma written_keeps data : keeps_callbacks (written data).
Proof. by intros p. Qed.

Lemma resized_keeps cols rows : keeps_callbacks (resized cols rows).
Proof. by intros p. Qed.

Lemma signalled_keeps : keeps_callbacks signalled.
Proof. by intros p. Qed.

Lemma wf_new root plat sh : registry_wf (new_server root plat sh).
Proof. intros tid t H. simpl in H. by rewrite lookup_empty in H. Qed.

Lemma wf_same (st st' : Server) :
  st'.(terminals) = st.(terminals) → st'.(ptys) = st.(ptys) →
  registry_wf st → registry_wf st'.
Proof. unfold registry_wf. intros -> ->. auto. Qed.

Lemma wf_alter (f : Pty → Pty) (h : Handle) (st : Server) :
  keeps_callbacks f → registry_wf st → registry_wf (set_ptys (alter f h) st).
Proof.
  intros Hf Hwf tid t Ht. simpl in *.
  destruct (Hwf tid t Ht) as (Hid & p & Hp & Hex & Hcb & Hsock).
  split; [done|].
  destruct (decide (h = ptyProcess t)) as [->|Hne].
  - exists (f p). rewrite list_lookup_alter_eq, Hp. destruct (Hf p) as (-> & -> & ->).
    done.
  - exists p. by rewrite list_lookup_alter_ne.
Qed.

Lemma wf_delete (k : string) (st : Server) :
  registry_wf st → registry_wf (set_terminals (delete k) st).
Proof.
  intros Hwf tid t Ht. simpl in *.
  apply lookup_delete_Some in Ht as [_ Ht]. by apply Hwf.
Qed.

Lemma wf_createTerminal sock data now (st : Server) :
  registry_wf st → registry_wf (createTerminal sock data now st).2.
Proof.
  intros Hwf tid t Ht. unfold createTerminal in Ht. simpl in *.
  apply lookup_insert_Some in Ht as [[<- <-]|[Hne Ht]]; simpl.
  - split; [done|]. eexists. split; [by apply list_lookup_middle|done].
  - destruct (Hwf tid t Ht) as (Hid & p & Hp & Hrest).
    split; [done|]. exists p. split; [|done].
    by rewrite lookup_app_l by (by eapply lookup_lt_Some).
Qed.

Lemma wf_onExit h exitCode signal (st : Server) :
  registry_wf st → registry_wf (onExit h exitCode signal st).
Proof.
  intros Hwf. unfold onExit.
  destruct (ptys st !! h) as [p|] eqn:Hp; [|done].
  intros tid t Ht. simpl in *.
  apply lookup_delete_Some in Ht as [Hne Ht].
  destruct (Hwf tid t Ht) as (Hid & q & Hq & Hrest).
  split; [done|]. exists q. split; [|done].
  rewrite list_lookup_alter_ne; [done|].
  intros ->. destruct Hrest as (_ & Hcb & _). congruence.
Qed.

Lemma wf_cleanup_entry sock (st : Server) e :
  registry_wf st → registry_wf (cleanup_entry sock st e).
Proof.
  intros Hwf. destruct e as [tid t]. unfold cleanup_entry.
  destruct (decide (socket t = sock)); [|done].
  eapply wf_same; [| |apply wf_delete, wf_alter, Hwf; apply signalled_keeps]; done.
Qed.

Lemma wf_cleanup_loop sock (l : list (string * Terminal)) (st : Server) :
  registry_wf st → registry_wf (foldl (cleanup_entry sock) st l).
Proof.
  revert st. induction l as [|e l IH]; intros st Hwf; [done|].
  simpl. by apply IH, wf_cleanup_entry.
Qed.

Lemma wf_settle k spawn now (st : Server) :
  registry_wf st → registry_wf (settle k spawn now st).
Proof.
  intros Hwf. unfold settle.
  destruct (probes st !! k) as [p|]; [|done].
  destruct (checkCLIAvailability spawn (pr_type p)) as [|[|]|reason]; [done|..].
  - unfold startCLI_then.
    eapply wf_same; [| |apply (wf_alter (written (pr_type p +:+ CR))
                                (ptyProcess (pr_terminal p))), Hwf;
                        apply written_keeps]; done.
  - by eapply wf_same; [| |exact Hwf].
  - by eapply wf_same; [| |exact Hwf].
Qed.

Lemma wf_handle ev (st st' : Server) :
  registry_wf st → handle ev st = Returned st' → registry_wf st'.
Proof.
  intros Hwf. destruct ev as [sock data now|sock data|sock data|sock data|sock data
                              |sock data|sock|h data|h exitCode signal|k spawn now];
    simpl.
  - intros [= <-]. by apply wf_createTerminal.
  - destruct data as [data|]; [|done]. simpl.
    destruct (terminals st !! i_terminalId data); intros [= <-]; [|done].
    apply wf_alter; [apply written_keeps|done].
  - destruct data as [data|]; [|done]. simpl.
    destruct (terminals st !! r_terminalId data); [case_bool_decide; [done|]|]; intros [= <-]; [|done].
    apply wf_alter; [apply resized_keeps|done].
  - destruct data as [data|]; [|done]. simpl.
    destruct (terminals st !! s_terminalId data); intros [= <-];
      by eapply wf_same; [| |exact Hwf].
  - destruct data as [data|]; [|done]. simpl.
    destruct (terminals st !! m_terminalId data) as [t|],
      (cliProcesses st !! m_terminalId data); intros [= <-];
      try (by eapply wf_same; [| |exact Hwf]).
    eapply wf_same; [| |apply (wf_alter
      (written (buildEnrichedPrompt (m_command data) (m_context data) +:+ CR))
      (ptyProcess t)), Hwf; apply written_keeps]; done.
  - destruct data as [data|]; [|done]. simpl.
    destruct (cliProcesses st !! p_terminalId data); intros [= <-]; [|done].
    destruct (terminals st !! p_terminalId data) as [t|].
    + eapply wf_same; [| |apply (wf_alter (written ETX) (ptyProcess t)), Hwf;
                          apply written_keeps]; done.
    + by eapply wf_same; [| |exact Hwf].
  - intros [= <-]. by apply wf_cleanup_loop.
  - intros [= <-]. unfold onData. destruct (ptys st !! h) as [p|]; [|done].
    by eapply wf_same; [| |exact Hwf].
  - intros [= <-]. by apply wf_onExit.
  - intros [= <-]. by apply wf_settle.
Qed.

Lemma reachable_wf (st : Server) : reachable st → registry_wf st.
Proof.
  induction 1 as [root plat sh|ev st st' _ IH Hstep];
    [apply wf_new | by eapply wf_handle].
Qed.

(** ** The loop of [cleanup] *)

Lemma cleanup_loop_batch sock (l : list (string * Terminal)) (st : Server) :
  foldl (cleanup_entry sock) st l
  = cleanup_batch (filter (λ e, e.2.(socket) = sock) l) st.
Proof.
  revert st. induction l as [|[k t] l IH]; intros st; [by destruct st|].
  simpl. rewrite IH. unfold cleanup_entry. rewrite filter_cons. simpl.
  destruct (decide (socket t = sock)); reflexivity.
Qed.

Lemma cleanup_is_batch sock (st : Server) :
  cleanup sock st = cleanup_batch (owned_sessions sock st) st.
Proof. apply cleanup_loop_batch. Qed.

Lemma lookup_delete_all_None {A} (ks : list string) (m : gmap string A) k :
  m !! k = None → delete_all ks m !! k = None.
Proof.
  revert m. induction ks as [|k' ks IH]; intros m H; [done|].
  simpl. apply IH. rewrite lookup_delete. by case_decide.
Qed.

Lemma lookup_delete_all_in {A} (ks : list string) (m : gmap string A) k :
  k ∈ ks → delete_all ks m !! k = None.
Proof.
  revert m. induction ks as [|k' ks IH]; intros m H; [by apply elem_of_nil in H|].
  simpl. destruct (decide (k' = k)) as [->|Hne].
  - apply lookup_delete_all_None, lookup_delete_eq.
  - apply IH. apply elem_of_cons in H as [->|H]; done.
Qed.

Lemma lookup_delete_all_notin {A} (ks : list string) (m : gmap string A) k :
  k ∉ ks → delete_all ks m !! k = m !! k.
Proof.
  revert m. induction ks as [|k' ks IH]; intros m H; [done|].
  apply not_elem_of_cons in H as [Hne H].
  simpl. rewrite IH by done. by rewrite lookup_delete_ne.
Qed.

Lemma length_kill_all hs (ps : list Pty) : length (kill_all hs ps) = length ps.
Proof.
  revert ps. induction hs as [|h hs IH]; intros ps; [done|].
  simpl. by rewrite IH, length_alter.
Qed.

Lemma lookup_kill_all_notin hs (ps : list Pty) h :
  h ∉ hs → kill_all hs ps !! h = ps !! h.
Proof.
  revert ps. induction hs as [|h' hs IH]; intros ps H; [done|].
  apply not_elem_of_cons in H as [Hne H].
  simpl. rewrite IH by done. by rewrite list_lookup_alter_ne.
Qed.

Lemma lookup_kill_all_in hs (ps : list Pty) h :
  NoDup hs → h ∈ hs → kill_all hs ps !! h = signalled <$> ps !! h.
Proof.
  revert ps. induction hs as [|h' hs IH]; intros ps Hnd H; [by apply elem_of_nil in H|].
  apply NoDup_cons in Hnd as [Hnotin Hnd]. simpl.
  destruct (decide (h' = h)) as [->|Hne].
  - rewrite lookup_kill_all_notin by done. apply list_lookup_alter_eq.
  - apply elem_of_cons in H as [->|H]; [done|].
    rewrite IH by done. by rewrite list_lookup_alter_ne.
Qed.

Lemma kill_all_keeps hs (ps : list Pty) h :
  pty_exited <$> kill_all hs ps !! h = pty_exited <$> ps !! h.
Proof.
  revert ps. induction hs as [|h' hs IH]; intros ps; [done|].
  simpl. rewrite IH. rewrite list_lookup_alter. case_decide; [subst h'|done].
  by destruct (ps !! h).
Qed.

Lemma sum_alter_signalled (ps : list Pty) h :
  h < length ps →
  sum_list_with pty_signals (alter signalled h ps) = S (sum_list_with pty_signals ps).
Proof.
  revert h. induction ps as [|p ps IH]; intros h Hh; simpl in *; [lia|].
  destruct h as [|h]; [done|].
  pose proof (IH h ltac:(lia)) as E. cbn in *. lia.
Qed.

Lemma sum_kill_all hs (ps : list Pty) :
  (∀ h, h ∈ hs → h < length ps) →
  sum_list_with pty_signals (kill_all hs ps)
  = sum_list_with pty_signals ps + length hs.
Proof.
  revert ps. induction hs as [|h hs IH]; intros ps H; simpl; [lia|].
  rewrite IH.
  - rewrite sum_alter_signalled; [lia|]. apply H, elem_of_cons. by left.
  - intros h' Hh'. rewrite length_alter. apply H, elem_of_cons. by right.
Qed.

(** The owned sessions of a socket, read off the registry. *)
Lemma elem_of_owned_sessions sock (st : Server) k t :
  (k, t) ∈ owned_sessions sock st ↔ st.(terminals) !! k = Some t ∧ t.(socket) = sock.
Proof.
  unfold owned_sessions. rewrite list_elem_of_filter, elem_of_map_to_list. simpl.
  tauto.
Qed.

Lemma owned_key sock (st : Server) k :
  k ∈ (owned_sessions sock st).*1
  ↔ ∃ t, st.(terminals) !! k = Some t ∧ t.(socket) = sock.
Proof.
  rewrite list_elem_of_fmap. split.
  - intros ([k' t] & -> & H). exists t. by apply elem_of_owned_sessions.
  - intros (t & H). exists (k, t). split; [done|]. by apply elem_of_owned_sessions.
Qed.

Lemma owned_handle sock (st : Server) h :
  h ∈ ptyProcess <$> (owned_sessions sock st).*2
  ↔ ∃ k t, st.(terminals) !! k = Some t ∧ t.(socket) = sock ∧ t.(ptyProcess) = h.
Proof.
  rewrite <- list_fmap_compose, list_elem_of_fmap. split.
  - intros ([k t] & -> & H). exists k, t. by apply elem_of_owned_sessions in H as [??].
  - intros (k & t & H1 & H2 & <-). exists (k, t). split; [done|].
    by apply elem_of_owned_sessions.
Qed.

(** In a well-formed registry two entries never share a process. *)
Lemma wf_handle_inj (st : Server) k1 t1 k2 t2 :
  registry_wf st →
  st.(terminals) !! k1 = Some t1 → st.(terminals) !! k2 = Some t2 →
  t1.(ptyProcess) = t2.(ptyProcess) → k1 = k2.
Proof.
  intros Hwf H1 H2 E.
  destruct (Hwf _ _ H1) as (_ & p1 & Hp1 & _ & Hcb1 & _).
  destruct (Hwf _ _ H2) as (_ & p2 & Hp2 & _ & Hcb2 & _).
  rewrite E in Hp1. congruence.
Qed.

Lemma NoDup_owned_handles sock (st : Server) :
  registry_wf st → NoDup (ptyProcess <$> (owned_sessions sock st).*2).
Proof.
  intros Hwf. rewrite <- list_fmap_compose.
  apply NoDup_fmap_2_strong.
  - intros [k1 t1] [k2 t2] [H1 _]%elem_of_owned_sessions [H2 _]%elem_of_owned_sessions E.
    simpl in E. assert (k1 = k2) as -> by (by eapply wf_handle_inj). congruence.
  - apply NoDup_filter, NoDup_map_to_list.
Qed.

(** ** Reachability of the sample states *)

Lemma reachable_run (evs : list Event) (st st' : Server) :
  reachable st → run evs st = Returned st' → reachable st'.
Proof.
  revert st. induction evs as [|ev evs IH]; intros st Hst; simpl.
  - by intros [= <-].
  - destruct (handle ev st) as [st1|] eqn:E; [|done].
    apply IH. by eapply reachable_step.
Qed.

Lemma reachable_state_after (evs : list Event) : reachable (state_after evs).
Proof.
  unfold state_after. destruct (run evs fresh_server) as [st|] eqn:E.
  - eapply reachable_run; [apply reachable_new|exact E].
  - apply reachable_new.
Qed.

(** ** Disconnect *)

Lemma cleanup_owned sock (st : Server) tid t :
  st.(terminals) !! tid = Some t → t.(socket) = sock →
  (cleanup sock st).(terminals) !! tid = None
  ∧ (cleanup sock st).(cliProcesses) !! tid = None.
Proof.
  intros Ht Hs. rewrite cleanup_is_batch. simpl.
  assert (tid ∈ (owned_sessions sock st).*1) by (apply owned_key; eauto).
  split; by apply lookup_delete_all_in.
Qed.

Lemma cleanup_not_owned sock (st : Server) tid :
  (∀ t, st.(terminals) !! tid = Some t → t.(socket) ≠ sock) →
  (cleanup sock st).(terminals) !! tid = st.(terminals) !! tid
  ∧ (cleanup sock st).(cliProcesses) !! tid = st.(cliProcesses) !! tid.
Proof.
  intros H. rewrite cleanup_is_batch. simpl.
  assert (tid ∉ (owned_sessions sock st).*1).
  { intros (t & Ht & Hs)%owned_key. by apply (H t). }
  split; by apply lookup_delete_all_notin.
Qed.

Lemma cleanup_signals_owned sock (st : Server) tid t :
  registry_wf st → st.(terminals) !! tid = Some t → t.(socket) = sock →
  (cleanup sock st).(ptys) !! t.(ptyProcess) = signalled <$> st.(ptys) !! t.(ptyProcess).
Proof.
  intros Hwf Ht Hs. rewrite cleanup_is_batch. simpl.
  apply lookup_kill_all_in; [by apply NoDup_owned_handles|].
  apply owned_handle. eauto.
Qed.

Lemma cleanup_total_signals sock (st : Server) :
  registry_wf st →
  total_signals (cleanup sock st) = total_signals st + length (owned_sessions sock st).
Proof.
  intros Hwf. rewrite cleanup_is_batch. unfold total_signals. simpl.
  rewrite sum_kill_all, !length_fmap; [done|].
  intros h (k & t & Ht & _ & <-)%owned_handle.
  destruct (Hwf _ _ Ht) as (_ & p & Hp & _). by eapply lookup_lt_Some.
Qed.

Lemma cleanup_no_residue sock (st : Server) :
  owned_sessions sock (cleanup sock st) = [].
Proof.
  destruct (owned_sessions sock (cleanup sock st)) as [|[k t] l] eqn:E; [done|].
  assert ((k, t) ∈ owned_sessions sock (cleanup sock st)) as [Ht Hs]%elem_of_owned_sessions.
  { rewrite E. apply elem_of_cons. by left. }
  destruct (st.(terminals) !! k) as [t0|] eqn:Ht0.
  - destruct (decide (socket t0 = sock)) as [Hs0|Hs0].
    + destruct (cleanup_owned sock st k t0 Ht0 Hs0) as [Hn _]. congruence.
    + destruct (cleanup_not_owned sock st k) as [Hk _]; [congruence|].
      congruence.
  - destruct (cleanup_not_owned sock st k) as [Hk _]; [congruence|]. congruence.
Qed.

(** C3: on disconnect of a connection that owns N sessions the processes
    receive N termination signals in all, exactly one for the process of each
    owned session and none for any other process, and afterwards the
    registry holds no session entry of that connection and no overlay entry
    under any of its identifiers. *)
Theorem C3_disconnect_signals_every_owned_session (sock : Socket) (st : Server) :
  reachable st →
  total_signals (cleanup sock st) = total_signals st + length (owned_sessions sock st)
  ∧ (∀ tid t, st.(terminals) !! tid = Some t → t.(socket) = sock →
       (cleanup sock st).(ptys) !! t.(ptyProcess)
         = signalled <$> st.(ptys) !! t.(ptyProcess)
       ∧ (cleanup sock st).(terminals) !! tid = None
       ∧ (cleanup sock st).(cliProcesses) !! tid = None)
  ∧ (∀ h, (∀ tid t, st.(terminals) !! tid = Some t → t.(socket) = sock →
             t.(ptyProcess) ≠ h) →
       (cleanup sock st).(ptys) !! h = st.(ptys) !! h)
  ∧ owned_sessions sock (cleanup sock st) = [].
Proof.
  intros Hwf%reachable_wf.
  split; [by apply cleanup_total_signals|].
  split.
  { intros tid t Ht Hs. split; [by apply (cleanup_signals_owned sock st tid t)|].
    by apply (cleanup_owned sock st tid t). }
  split; [|apply cleanup_no_residue].
  intros h Hh. rewrite cleanup_is_batch. simpl.
  apply lookup_kill_all_notin.
  intros (k & t & Ht & Hs & E)%owned_handle. by apply (Hh k t).
Qed.

Lemma C3_witness :
  total_signals (cleanup 1 (state_after three_sessions))
    = total_signals (state_after three_sessions)
      + length (owned_sessions 1 (state_after three_sessions))
  ∧ (∀ tid t, (state_after three_sessions).(terminals) !! tid = Some t →
       t.(socket) = 1 →
       (cleanup 1 (state_after three_sessions)).(ptys) !! t.(ptyProcess)
         = signalled <$> (state_after three_sessions).(ptys) !! t.(ptyProcess)
       ∧ (cleanup 1 (state_after three_sessions)).(terminals) !! tid = None
       ∧ (cleanup 1 (state_after three_sessions)).(cliProcesses) !! tid = None)
  ∧ (∀ h, (∀ tid t, (state_after three_sessions).(terminals) !! tid = Some t →
             t.(socket) = 1 → t.(ptyProcess) ≠ h) →
       (cleanup 1 (state_after three_sessions)).(ptys) !! h
         = (state_after three_sessions).(ptys) !! h)
  ∧ owned_sessions 1 (cleanup 1 (state_after three_sessions)) = [].
Proof.
  apply (C3_disconnect_signals_every_owned_session 1 (state_after three_sessions)).
  apply reachable_state_after.
Defined.

Example disconnect_two_of_three :
  length (owned_sessions 1 (state_after three_sessions)) = 2
  ∧ total_signals (state_after three_sessions) = 0
  ∧ total_signals (cleanup 1 (state_after three_sessions)) = 2
  ∧ pty_signals <$> (cleanup 1 (state_after three_sessions)).(ptys) = [1; 1; 0]
  ∧ (map_to_list (cleanup 1 (state_after three_sessions)).(terminals)).*1 = ["c"]
  ∧ (map_to_list (cleanup 1 (state_after three_sessions)).(cliProcesses)).*1 = ["c"].
Proof. vm_compute. repeat split. Qed.

(** C4, as stated, fails: after a client that opened a terminal
    disconnects, the entry is gone from the registry although the process
    has only been signalled: it has not exited and no exit notification has
    been emitted. *)
Lemma C4_entry_removed_before_exit :
  (state_after [ev_terminal_create 1 (create_named "main-terminal") 1700000000000]
  ).(terminals) !! "main-terminal"
    = Some {| id := "main-terminal"; ptyProcess := 0; socket := 1;
              createdAt := 1700000000000 |}
  ∧ (state_after connect_disconnect).(terminals) !! "main-terminal" = None
  ∧ pty_signals <$> (state_after connect_disconnect).(ptys) !! 0 = Some 1
  ∧ pty_exited <$> (state_after connect_disconnect).(ptys) !! 0 = Some false
  ∧ (state_after connect_disconnect).(outbox)
    = [(1, terminal_created "main-terminal" "bash" "/workspace")].
Proof. vm_compute. repeat split. Qed.

(** C10: [cleanup] for one connection leaves every session entry owned by
    another connection, and the overlay entry under its identifier, as they
    were; the only identifiers whose session or overlay entry changes are
    those of sessions the disconnecting connection owns. *)
Theorem C10_cleanup_touches_only_own_entries (sock : Socket) (st : Server)
    (tid : string) (t : Terminal) :
  st.(terminals) !! tid = Some t → t.(socket) ≠ sock →
  (cleanup sock st).(terminals) !! tid = Some t
  ∧ (cleanup sock st).(cliProcesses) !! tid = st.(cliProcesses) !! tid
  ∧ (∀ tid',
       (cleanup sock st).(terminals) !! tid' ≠ st.(terminals) !! tid'
       ∨ (cleanup sock st).(cliProcesses) !! tid' ≠ st.(cliProcesses) !! tid' →
       ∃ t', st.(terminals) !! tid' = Some t' ∧ t'.(socket) = sock).
Proof.
  intros Ht Hs.
  destruct (cleanup_not_owned sock st tid) as [H1 H2]; [congruence|].
  rewrite H1, H2. repeat split; try done.
  intros tid' Hchg.
  destruct (st.(terminals) !! tid') as [t'|] eqn:Ht'.
  - destruct (decide (socket t' = sock)) as [?|Hne]; [by exists t'|].
    destruct (cleanup_not_owned sock st tid') as [H1' H2']; [congruence|].
    rewrite Ht' in H1'. by destruct Hchg.
  - destruct (cleanup_not_owned sock st tid') as [H1' H2']; [congruence|].
    rewrite Ht' in H1'. by destruct Hchg.
Qed.

Lemma C10_witness :
  (cleanup 1 (state_after three_sessions)).(terminals) !! "c"
    = Some {| id := "c"; ptyProcess := 2; socket := 2; createdAt := 1700000000002 |}
  ∧ (cleanup 1 (state_after three_sessions)).(cliProcesses) !! "c"
    = (state_after three_sessions).(cliProcesses) !! "c"
  ∧ (∀ tid',
       (cleanup 1 (state_after three_sessions)).(terminals) !! tid'
         ≠ (state_after three_sessions).(terminals) !! tid'
       ∨ (cleanup 1 (state_after three_sessions)).(cliProcesses) !! tid'
         ≠ (state_after three_sessions).(cliProcesses) !! tid' →
       ∃ t', (state_after three_sessions).(terminals) !! tid' = Some t'
             ∧ t'.(socket) = 1).
Proof.
  apply (C10_cleanup_touches_only_own_entries 1 (state_after three_sessions) "c"
           {| id := "c"; ptyProcess := 2; socket := 2; createdAt := 1700000000002 |}).
  - vm_compute. reflexivity.
  - simpl. lia.
Defined.

(** ** Creating over a live identifier *)

(** C1, as stated, fails: when a second client connects while the first is
    still there (every client names its terminal [main-terminal]), the
    state reached has two live processes for that one identifier, and no
    termination signal has been sent. *)
Lemma C1_two_live_processes_for_one_identifier :
  reachable (state_after two_clients)
  ∧ live_for (state_after two_clients) "main-terminal" 0
  ∧ live_for (state_after two_clients) "main-terminal" 1
  ∧ total_signals (state_after two_clients) = 0
  ∧ ¬ one_live_process_per_id (state_after two_clients).
Proof.
  assert (live_for (state_after two_clients) "main-terminal" 0) as H0.
  { eexists. vm_compute. repeat split. }
  assert (live_for (state_after two_clients) "main-terminal" 1) as H1.
  { eexists. vm_compute. repeat split. }
  repeat split; try done.
  - apply reachable_state_after.
  - intros H. by specialize (H _ _ _ H0 H1).
Qed.

(** C1 (amended): a create whose identifier already denotes a live session
    spawns the new process and overwrites the registry entry with the new
    handle; the old process is neither signalled nor removed from the
    process table and stays live, now unregistered.  What holds in every
    reachable state is that the registry has one entry per identifier, whose
    process was spawned for that identifier and has not exited. *)
Theorem C1_create_overwrites_live_entry (sock : Socket) (data : option CreateData)
    (now : N) (st : Server) (old : Terminal) :
  reachable st →
  st.(terminals) !! (createTerminal sock data now st).1 = Some old →
  (createTerminal sock data now st).2.(terminals) !! (createTerminal sock data now st).1
    = Some {| id := (createTerminal sock data now st).1;
              ptyProcess := length st.(ptys); socket := sock; createdAt := now |}
  ∧ old.(ptyProcess) ≠ length st.(ptys)
  ∧ (createTerminal sock data now st).2.(ptys) !! old.(ptyProcess)
    = st.(ptys) !! old.(ptyProcess)
  ∧ live_for (createTerminal sock data now st).2 (createTerminal sock data now st).1
      old.(ptyProcess)
  ∧ live_for (createTerminal sock data now st).2 (createTerminal sock data now st).1
      (length st.(ptys))
  ∧ total_signals (createTerminal sock data now st).2 = total_signals st
  ∧ registry_wf (createTerminal sock data now st).2.
Proof.
  intros Hwf%reachable_wf Hold.
  pose proof (wf_createTerminal sock data now st Hwf) as Hwf'.
  destruct (Hwf _ _ Hold) as (_ & p & Hp & Hex & Hcb & _).
  pose proof (lookup_lt_Some _ _ _ Hp) as Hlt.
  unfold live_for, total_signals, createTerminal in *. simpl in *.
  split; [by rewrite lookup_insert_eq|].
  split; [lia|].
  split; [by rewrite lookup_app_l|].
  split; [exists p; by rewrite lookup_app_l|].
  split; [eexists; split; [by apply list_lookup_middle|done]|].
  split; [|done].
  rewrite sum_list_with_app. simpl. lia.
Qed.

Lemma C1_witness :
  (createTerminal 2 (create_named "a") 1700000009000
     (state_after three_sessions)).2.(terminals)
    !! (createTerminal 2 (create_named "a") 1700000009000 (state_after three_sessions)).1
    = Some {| id := (createTerminal 2 (create_named "a") 1700000009000
                       (state_after three_sessions)).1;
              ptyProcess := length (state_after three_sessions).(ptys); socket := 2;
              createdAt := 1700000009000 |}
  ∧ 0 ≠ length (state_after three_sessions).(ptys)
  ∧ (createTerminal 2 (create_named "a") 1700000009000
       (state_after three_sessions)).2.(ptys) !! 0
    = (state_after three_sessions).(ptys) !! 0
  ∧ live_for (createTerminal 2 (create_named "a") 1700000009000
                (state_after three_sessions)).2
      (createTerminal 2 (create_named "a") 1700000009000 (state_after three_sessions)).1
      0
  ∧ live_for (createTerminal 2 (create_named "a") 1700000009000
                (state_after three_sessions)).2
      (createTerminal 2 (create_named "a") 1700000009000 (state_after three_sessions)).1
      (length (state_after three_sessions).(ptys))
  ∧ total_signals (createTerminal 2 (create_named "a") 1700000009000
                     (state_after three_sessions)).2
    = total_signals (state_after three_sessions)
  ∧ registry_wf (createTerminal 2 (create_named "a") 1700000009000
                   (state_after three_sessions)).2.
Proof.
  apply (C1_create_overwrites_live_entry 2 (create_named "a") 1700000009000
           (state_after three_sessions)
           {| id := "a"; ptyProcess := 0; socket := 1; createdAt := 1700000000000 |}).
  - apply reachable_state_after.
  - vm_compute. reflexivity.
Defined.

(** ** Exit of a process *)

Lemma onExit_cliProcesses h exitCode signal (st : Server) :
  (onExit h exitCode signal st).(cliProcesses) = st.(cliProcesses).
Proof.
  unfold onExit. by destruct (ptys st !! h) as [p|].
Qed.

Lemma onExit_live h exitCode signal (st : Server) (p : Pty) :
  st.(ptys) !! h = Some p → p.(pty_exited) = false →
  (onExit h exitCode signal st).(outbox)
    = st.(outbox) ++ [(p.(cb_socket), terminal_exit p.(cb_terminalId) exitCode signal)]
  ∧ (onExit h exitCode signal st).(terminals) = delete p.(cb_terminalId) st.(terminals).
Proof. intros Hp _. unfold onExit. by rewrite Hp. Qed.

(** C2, evaluated where it fails: when a process reports exit, the exit
    callback emits the exit notification with the identifier, the code and
    the signal, and deletes the session entry, but it never touches
    [cliProcesses].  So when the shell of a terminal in which a CLI was
    started exits, the overlay entry stays behind, for a session that no
    longer exists. *)
Theorem C2_exit_leaves_overlay_entry :
  (∀ h exitCode signal st p,
     st.(ptys) !! h = Some p → p.(pty_exited) = false →
     (onExit h exitCode signal st).(outbox)
       = st.(outbox) ++ [(p.(cb_socket), terminal_exit p.(cb_terminalId) exitCode signal)]
     ∧ (onExit h exitCode signal st).(terminals) = delete p.(cb_terminalId) st.(terminals)
     ∧ (onExit h exitCode signal st).(cliProcesses) = st.(cliProcesses))
  ∧ reachable (state_after exit_after_start)
  ∧ (state_after exit_after_start).(terminals) !! "main-terminal" = None
  ∧ (state_after exit_after_start).(cliProcesses) !! "main-terminal"
    = Some {| type := "gemini"; active := true; startedAt := 1700000000100 |}
  ∧ last (state_after exit_after_start).(outbox)
    = Some (1, terminal_exit "main-terminal" 0 None).
Proof.
  split.
  { intros h exitCode signal st p Hp Hex.
    destruct (onExit_live h exitCode signal st p Hp Hex) as [-> ->].
    by rewrite onExit_cliProcesses. }
  split; [apply reachable_state_after|].
  vm_compute. repeat split.
Qed.

(** The same overlay-without-session state arises when the shell exits
    while the version probe of a start request is still running: the
    continuation writes to the process it captured and records the overlay. *)
Example start_settles_after_exit :
  let st := state_after
      [ev_terminal_create 1 (create_named "main-terminal") 1700000000000;
       ev_cli_start 1 (Some {| s_type := "gemini"; s_terminalId := "main-terminal" |});
       ev_pty_exit 0 0 None;
       ev_probe 0 installed 1700000000100] in
  st.(terminals) !! "main-terminal" = None
  ∧ type <$> st.(cliProcesses) !! "main-terminal" = Some "gemini".
Proof. vm_compute. repeat split. Qed.

(** After a create over a live identifier, the exit of the old process
    deletes the entry of the new session, whose process then runs on outside
    the registry: a later disconnect of its owner signals nothing. *)
Example old_exit_unregisters_new_session :
  let st := state_after (two_clients ++ [ev_pty_exit 0 0 None]) in
  st.(terminals) !! "main-terminal" = None
  ∧ pty_exited <$> st.(ptys) !! 1 = Some false
  ∧ owned_sessions 2 st = []
  ∧ total_signals (cleanup 2 st) = 0.
Proof. vm_compute. repeat split. Qed.

(** ** Stale identifiers *)

(** C7, as stated, fails for stop: once the shell of a terminal with a CLI
    has exited, the identifier denotes no live session, yet a stop for it
    removes the overlay entry and emits a [cli:stopped] notification. *)
Lemma C7_stop_on_stale_id_changes_state :
  (state_after exit_after_start).(terminals) !! "main-terminal" = None
  ∧ stopCLI 1 (Some {| p_terminalId := "main-terminal" |}) (state_after exit_after_start)
    = Returned
        (emit 1 (cli_stopped "main-terminal" "gemini")
           (set_cliProcesses (delete "main-terminal") (state_after exit_after_start)))
  ∧ stopCLI 1 (Some {| p_terminalId := "main-terminal" |}) (state_after exit_after_start)
    ≠ Returned (state_after exit_after_start).
Proof.
  split; [vm_compute; reflexivity|].
  assert (stopCLI 1 (Some {| p_terminalId := "main-terminal" |})
            (state_after exit_after_start)
          = Returned
              (emit 1 (cli_stopped "main-terminal" "gemini")
                 (set_cliProcesses (delete "main-terminal")
                    (state_after exit_after_start)))) as E.
  { unfold stopCLI. simpl.
    assert ((state_after exit_after_start).(cliProcesses) !! "main-terminal"
            = Some {| type := "gemini"; active := true; startedAt := 1700000000100 |})
      as -> by (vm_compute; reflexivity).
    assert ((state_after exit_after_start).(terminals) !! "main-terminal" = None)
      as -> by (vm_compute; reflexivity).
    reflexivity. }
  split; [exact E|]. rewrite E. intros H.
  apply (f_equal (λ o, match o with
                       | Returned s => length s.(outbox)
                       | Thrown _ => 0
                       end)) in H.
  vm_compute in H. discriminate.
Qed.

(** C7 (amended): for an identifier that denotes no live session, input and
    resize return with the state unchanged; stop returns, writes to no
    process, leaves the session registry unchanged and emits no error: with
    no overlay entry under the identifier the state is unchanged, and with
    one the entry is removed and a [cli:stopped] notification is emitted. *)
Theorem C7_stale_identifier_handlers (sock : Socket) (tid : string) (st : Server) :
  st.(terminals) !! tid = None →
  (∀ input, on_terminal_input (Some {| i_terminalId := tid; i_input := input |}) st
            = Returned st)
  ∧ (∀ cols rows,
       on_terminal_resize (Some {| r_terminalId := tid; r_cols := cols; r_rows := rows |}) st
       = Returned st)
  ∧ stopCLI sock (Some {| p_terminalId := tid |}) st
    = match st.(cliProcesses) !! tid with
      | None => Returned st
      | Some cliProcess =>
          Returned (emit sock (cli_stopped tid cliProcess.(type))
                      (set_cliProcesses (delete tid) st))
      end.
Proof.
  intros H. unfold on_terminal_input, on_terminal_resize, stopCLI. simpl.
  rewrite H. repeat split.
Qed.

Lemma C7_witness :
  (∀ input,
     on_terminal_input (Some {| i_terminalId := "main-terminal"; i_input := input |})
       (state_after exit_after_start)
     = Returned (state_after exit_after_start))
  ∧ (∀ cols rows,
       on_terminal_resize
         (Some {| r_terminalId := "main-terminal"; r_cols := cols; r_rows := rows |})
         (state_after exit_after_start)
       = Returned (state_after exit_after_start))
  ∧ stopCLI 1 (Some {| p_terminalId := "main-terminal" |}) (state_after exit_after_start)
    = match (state_after exit_after_start).(cliProcesses) !! "main-terminal" with
      | None => Returned (state_after exit_after_start)
      | Some cliProcess =>
          Returned (emit 1 (cli_stopped "main-terminal" cliProcess.(type))
                      (set_cliProcesses (delete "main-terminal")
                         (state_after exit_after_start)))
      end.
Proof.
  apply (C7_stale_identifier_handlers 1 "main-terminal" (state_after exit_after_start)).
  vm_compute. reflexivity.
Defined.

(** A resize of a live session to a size that is not positive throws, and
    nothing is recorded; for an identifier without a session the same
    request is dropped. *)
Example resize_to_zero_throws :
  on_terminal_resize (Some {| r_terminalId := "a"; r_cols := 0; r_rows := 24 |})
    (state_after three_sessions) = Thrown PtyError
  ∧ on_terminal_resize (Some {| r_terminalId := "gone"; r_cols := 0; r_rows := 24 |})
      (state_after three_sessions) = Returned (state_after three_sessions)
  ∧ run [ev_terminal_resize 1 (Some {| r_terminalId := "a"; r_cols := 80; r_rows := 0 |})]
      (state_after three_sessions) = Thrown PtyError.
Proof. vm_compute. repeat split. Qed.

(** * Properties of whole runs *)

(** ** The history of a process is never rewritten *)

Lemma pty_later_refl (p : Pty) : pty_later p p.
Proof. by repeat split. Qed.

Lemma pty_later_trans (p q r : Pty) : pty_later p q → pty_later q r → pty_later p r.
Proof.
  intros (?&?&?&?&?&?&?) (?&?&?&?&?&?&?).
  repeat split; try congruence; [auto|lia|by etrans].
Qed.

Lemma written_later data (p : Pty) : pty_later p (written data p).
Proof. repeat split; simpl; try done. by apply prefix_app_r. Qed.

Lemma resized_later cols rows (p : Pty) : pty_later p (resized cols rows p).
Proof. by repeat split. Qed.

Lemma signalled_later (p : Pty) : pty_later p (signalled p).
Proof. repeat split; simpl; try done. lia. Qed.

Lemma exited_later (p : Pty) : pty_later p (exited p).
Proof. by repeat split. Qed.

Lemma table_later_refl (st : Server) : table_later st st.
Proof. intros h p Hp. exists p. split; [done|apply pty_later_refl]. Qed.

Lemma table_later_trans (st1 st2 st3 : Server) :
  table_later st1 st2 → table_later st2 st3 → table_later st1 st3.
Proof.
  intros H12 H23 h p Hp.
  destruct (H12 h p Hp) as (q & Hq & Hpq).
  destruct (H23 h q Hq) as (r & Hr & Hqr).
  exists r. split; [done|by eapply pty_later_trans].
Qed.

Lemma table_later_same (st st' : Server) :
  st'.(ptys) = st.(ptys) → table_later st st'.
Proof. intros E h p Hp. exists p. rewrite E. split; [done|apply pty_later_refl]. Qed.

Lemma table_later_alter (f : Pty → Pty) (h : nat) (st st' : Server) :
  (∀ p, pty_later p (f p)) →
  st'.(ptys) = alter f h st.(ptys) → table_later st st'.
Proof.
  intros Hf E h' p Hp. rewrite E.
  destruct (decide (h = h')) as [->|Hne].
  - exists (f p). by rewrite list_lookup_alter_eq, Hp.
  - exists p. rewrite list_lookup_alter_ne by done. split; [done|apply pty_later_refl].
Qed.

Lemma table_later_app (l : list Pty) (st st' : Server) :
  st'.(ptys) = st.(ptys) ++ l → table_later st st'.
Proof.
  intros E h p Hp. exists p. rewrite E.
  rewrite lookup_app_l by (by eapply lookup_lt_Some).
  split; [done|apply pty_later_refl].
Qed.

Lemma kill_all_later hs (ps : list Pty) h p :
  ps !! h = Some p → ∃ p', kill_all hs ps !! h = Some p' ∧ pty_later p p'.
Proof.
  revert ps p. induction hs as [|h' hs IH]; intros ps p Hp; simpl.
  - exists p. split; [done|apply pty_later_refl].
  - destruct (decide (h' = h)) as [->|Hne].
    + destruct (IH (alter signalled h ps) (signalled p)) as (p' & Hp' & Hl).
      { by rewrite list_lookup_alter_eq, Hp. }
      exists p'. split; [done|]. eapply pty_later_trans; [apply signalled_later|done].
    + apply IH. by rewrite list_lookup_alter_ne.
Qed.

Lemma cleanup_ptys sock (st : Server) :
  (cleanup sock st).(ptys) = kill_all (ptyProcess <$> (owned_sessions sock st).*2) st.(ptys).
Proof. by rewrite cleanup_is_batch. Qed.

Lemma handle_table_later ev (st st' : Server) :
  handle ev st = Returned st' → table_later st st'.
Proof.
  destruct ev as [sock data now|sock data|sock data|sock data|sock data
                  |sock data|sock|h data|h exitCode signal|k spawn now]; simpl.
  - intros [= <-]. by eapply table_later_app.
  - destruct data as [data|]; [|done]. simpl.
    destruct (terminals st !! i_terminalId data); intros [= <-];
      [|apply table_later_refl].
    eapply table_later_alter; [apply written_later|done].
  - destruct data as [data|]; [|done]. simpl.
    destruct (terminals st !! r_terminalId data); [case_bool_decide; [done|]|]; intros [= <-];
      [|apply table_later_refl].
    eapply table_later_alter; [apply resized_later|done].
  - destruct data as [data|]; [|done]. simpl.
    destruct (terminals st !! s_terminalId data); intros [= <-];
      by apply table_later_same.
  - destruct data as [data|]; [|done]. simpl.
    destruct (terminals st !! m_terminalId data) as [t|],
      (cliProcesses st !! m_terminalId data); intros [= <-];
      try (by apply table_later_same).
    eapply table_later_alter; [apply written_later|done].
  - destruct data as [data|]; [|done]. simpl.
    destruct (cliProcesses st !! p_terminalId data); intros [= <-];
      [|apply table_later_refl].
    destruct (terminals st !! p_terminalId data) as [t|].
    + eapply table_later_alter; [apply written_later|done].
    + by apply table_later_same.
  - intros [= <-]. intros h p Hp. rewrite cleanup_ptys. by apply kill_all_later.
  - intros [= <-]. unfold onData. destruct (ptys st !! h) as [p|];
      [|apply table_later_refl].
    by apply table_later_same.
  - intros [= <-]. unfold onExit. destruct (ptys st !! h) as [p|];
      [|apply table_later_refl].
    eapply table_later_alter; [apply exited_later|done].
  - intros [= <-]. unfold settle. destruct (probes st !! k) as [p|];
      [|apply table_later_refl].
    destruct (checkCLIAvailability spawn (pr_type p)) as [|[|]|reason];
      [apply table_later_refl| |by apply table_later_same..].
    eapply table_later_alter; [apply written_later|done].
Qed.

Lemma run_table_later (evs : list Event) (st st' : Server) :
  run evs st = Returned st' → table_later st st'.
Proof.
  revert st. induction evs as [|ev evs IH]; intros st; simpl.
  - intros [= <-]. apply table_later_refl.
  - destruct (handle ev st) as [st1|] eqn:E; [|done]. intros Hrun.
    eapply table_later_trans; [by eapply handle_table_later|by apply IH].
Qed.

(** C4 (amended): [cleanup] signals the process of every session the
    connection owns and removes the session entry and the overlay entry at
    once, at signal time: the process has not exited yet and no notification
    is emitted.  When the process later reports exit, whatever was handled
    in between, the exit callback emits the exit notification under the
    identifier to the old socket and deletes whatever entry is then
    registered under that identifier; handled right after [cleanup], it
    finds none. *)
Theorem C4_cleanup_removes_at_signal_time (sock : Socket) (st : Server)
    (tid : string) (t : Terminal) :
  reachable st →
  st.(terminals) !! tid = Some t → t.(socket) = sock →
  (cleanup sock st).(terminals) !! tid = None
  ∧ (cleanup sock st).(cliProcesses) !! tid = None
  ∧ (∃ p, st.(ptys) !! t.(ptyProcess) = Some p
        ∧ (cleanup sock st).(ptys) !! t.(ptyProcess) = Some (signalled p)
        ∧ pty_exited (signalled p) = false)
  ∧ (cleanup sock st).(outbox) = st.(outbox)
  ∧ (∀ exitCode signal,
       (onExit t.(ptyProcess) exitCode signal (cleanup sock st)).(outbox)
         = st.(outbox) ++ [(sock, terminal_exit tid exitCode signal)]
       ∧ (onExit t.(ptyProcess) exitCode signal (cleanup sock st)).(terminals)
         = (cleanup sock st).(terminals))
  ∧ (∀ evs st2 exitCode signal,
       run evs (cleanup sock st) = Returned st2 →
       (onExit t.(ptyProcess) exitCode signal st2).(outbox)
         = st2.(outbox) ++ [(sock, terminal_exit tid exitCode signal)]
       ∧ (onExit t.(ptyProcess) exitCode signal st2).(terminals)
         = delete tid st2.(terminals)).
Proof.
  intros Hwf%reachable_wf Ht Hs.
  destruct (cleanup_owned sock st tid t Ht Hs) as [Hterm Hcli].
  pose proof (cleanup_signals_owned sock st tid t Hwf Ht Hs) as Hsig.
  destruct (Hwf tid t Ht) as (_ & p & Hp & Hex & Hcb & Hsock).
  rewrite Hp in Hsig. simpl in Hsig.
  assert ((cleanup sock st).(outbox) = st.(outbox)) as Hout
    by (by rewrite cleanup_is_batch).
  assert (∀ evs st2 exitCode signal,
            run evs (cleanup sock st) = Returned st2 →
            (onExit t.(ptyProcess) exitCode signal st2).(outbox)
              = st2.(outbox) ++ [(sock, terminal_exit tid exitCode signal)]
            ∧ (onExit t.(ptyProcess) exitCode signal st2).(terminals)
              = delete tid st2.(terminals)) as Hlate.
  { intros evs st2 exitCode signal Hrun.
    destruct (run_table_later _ _ _ Hrun _ _ Hsig)
      as (p2 & Hp2 & (_ & _ & Hcb2 & Hsock2 & _)).
    simpl in Hcb2, Hsock2. unfold onExit. rewrite Hp2. simpl.
    by rewrite Hcb2, Hsock2, Hcb, Hsock, Hs. }
  split; [done|]. split; [done|]. split; [by exists p|]. split; [done|].
  split; [|exact Hlate].
  intros exitCode signal.
  destruct (Hlate [] (cleanup sock st) exitCode signal eq_refl) as [-> ->].
  split; [by rewrite Hout|by apply delete_id].
Qed.

Lemma C4_witness :
  (cleanup 1 (state_after three_sessions)).(terminals) !! "a" = None
  ∧ (cleanup 1 (state_after three_sessions)).(cliProcesses) !! "a" = None
  ∧ (∃ p, (state_after three_sessions).(ptys) !! 0 = Some p
        ∧ (cleanup 1 (state_after three_sessions)).(ptys) !! 0 = Some (signalled p)
        ∧ pty_exited (signalled p) = false)
  ∧ (cleanup 1 (state_after three_sessions)).(outbox)
    = (state_after three_sessions).(outbox)
  ∧ (∀ exitCode signal,
       (onExit 0 exitCode signal (cleanup 1 (state_after three_sessions))).(outbox)
         = (state_after three_sessions).(outbox)
           ++ [(1, terminal_exit "a" exitCode signal)]
       ∧ (onExit 0 exitCode signal (cleanup 1 (state_after three_sessions))).(terminals)
         = (cleanup 1 (state_after three_sessions)).(terminals))
  ∧ (∀ evs st2 exitCode signal,
       run evs (cleanup 1 (state_after three_sessions)) = Returned st2 →
       (onExit 0 exitCode signal st2).(outbox)
         = st2.(outbox) ++ [(1, terminal_exit "a" exitCode signal)]
       ∧ (onExit 0 exitCode signal st2).(terminals) = delete "a" st2.(terminals)).
Proof.
  apply (C4_cleanup_removes_at_signal_time 1 (state_after three_sessions) "a"
           {| id := "a"; ptyProcess := 0; socket := 1; createdAt := 1700000000000 |}).
  - apply reachable_state_after.
  - vm_compute. reflexivity.
  - reflexivity.
Defined.

(** ** Invariants of the overlay registry *)

Lemma or_string_nonempty (v : option string) (d : string) :
  d ≠ EmptyString → or_string v d ≠ EmptyString.
Proof. by destruct v as [[|c s]|]. Qed.

Lemma generated_id_nonempty (now : N) : generated_id now ≠ EmptyString.
Proof. done. Qed.

Lemma spawned_for_later (st st' : Server) tid :
  table_later st st' → spawned_for st tid → spawned_for st' tid.
Proof.
  intros Hl (h & p & Hp & Hcb).
  destruct (Hl h p Hp) as (p' & Hp' & (_ & _ & Hcb' & _)).
  exists h, p'. split; [done|congruence].
Qed.

Lemma probes_wf_mono (st st' : Server) :
  table_later st st' → (∀ pr, pr ∈ st'.(probes) → pr ∈ st.(probes)) →
  probes_wf st → probes_wf st'.
Proof.
  intros Hl Hsub Hwf pr Hpr.
  destruct (Hwf pr (Hsub pr Hpr)) as (p & Hp & Hcb).
  destruct (Hl _ p Hp) as (p' & Hp' & (_ & _ & Hcb' & _)).
  exists p'. split; [done|congruence].
Qed.

Lemma overlays_spawned_mono (st st' : Server) :
  table_later st st' →
  (∀ k c, st'.(cliProcesses) !! k = Some c → is_Some (st.(cliProcesses) !! k)) →
  overlays_spawned st → overlays_spawned st'.
Proof.
  intros Hl Hsub Hov k c Hk. destruct (Hsub k c Hk) as [c0 Hc0].
  eapply spawned_for_later; [done|]. by eapply Hov.
Qed.

Lemma cleanup_probes sock (st : Server) : (cleanup sock st).(probes) = st.(probes).
Proof. by rewrite cleanup_is_batch. Qed.

Lemma cleanup_cliProcesses_Some sock (st : Server) k c :
  (cleanup sock st).(cliProcesses) !! k = Some c → st.(cliProcesses) !! k = Some c.
Proof.
  rewrite cleanup_is_batch. simpl. intros H.
  destruct (decide (k ∈ (owned_sessions sock st).*1)) as [Hin|Hnotin].
  - by rewrite lookup_delete_all_in in H.
  - by rewrite lookup_delete_all_notin in H.
Qed.

Lemma probes_wf_handle ev (st st' : Server) :
  registry_wf st → probes_wf st → handle ev st = Returned st' → probes_wf st'.
Proof.
  intros Hwf Hpr Hstep. pose proof (handle_table_later _ _ _ Hstep) as Hl.
  destruct ev as [sock data now|sock data|sock data|sock data|sock data
                  |sock data|sock|h data|h exitCode signal|k spawn now];
    simpl in Hstep.
  - injection Hstep as <-. by apply (probes_wf_mono st).
  - destruct data as [data|]; [|done]. simpl in Hstep.
    destruct (terminals st !! i_terminalId data); injection Hstep as <-;
      by apply (probes_wf_mono st).
  - destruct data as [data|]; [|done]. simpl in Hstep.
    destruct (terminals st !! r_terminalId data); [case_bool_decide; [done|]|]; injection Hstep as <-;
      by apply (probes_wf_mono st).
  - destruct data as [data|]; [|done]. simpl in Hstep.
    destruct (terminals st !! s_terminalId data) as [t|] eqn:Ht;
      injection Hstep as <-; [|by apply (probes_wf_mono st)].
    intros pr [Hin|Hin%list_elem_of_singleton]%elem_of_app; simpl; [|subst pr].
    + by apply Hpr.
    + destruct (Hwf _ _ Ht) as (_ & p & Hp & _ & Hcb & _). by exists p.
  - destruct data as [data|]; [|done]. simpl in Hstep.
    destruct (terminals st !! m_terminalId data) as [t|],
      (cliProcesses st !! m_terminalId data); injection Hstep as <-;
      by apply (probes_wf_mono st).
  - destruct data as [data|]; [|done]. simpl in Hstep.
    destruct (cliProcesses st !! p_terminalId data); injection Hstep as <-;
      [|done].
    apply (probes_wf_mono st); [done| |done].
    by destruct (terminals st !! p_terminalId data).
  - injection Hstep as <-. apply (probes_wf_mono st); [done| |done].
    by rewrite cleanup_probes.
  - injection Hstep as <-. apply (probes_wf_mono st); [done| |done].
    unfold onData. by destruct (ptys st !! h) as [p|].
  - injection Hstep as <-. apply (probes_wf_mono st); [done| |done].
    unfold onExit. by destruct (ptys st !! h) as [p|].
  - injection Hstep as <-. apply (probes_wf_mono st); [done| |done].
    unfold settle. destruct (probes st !! k) as [p|]; [|done].
    destruct (checkCLIAvailability spawn (pr_type p)) as [|[|]|reason]; [done|..];
      simpl; intros pr; apply list_elem_of_delete_inv.
Qed.

Lemma overlays_spawned_handle ev (st st' : Server) :
  probes_wf st → overlays_spawned st → handle ev st = Returned st' →
  overlays_spawned st'.
Proof.
  intros Hpr Hov Hstep. pose proof (handle_table_later _ _ _ Hstep) as Hl.
  destruct ev as [sock data now|sock data|sock data|sock data|sock data
                  |sock data|sock|h data|h exitCode signal|k spawn now];
    simpl in Hstep.
  - injection Hstep as <-. apply (overlays_spawned_mono st); [done| |done].
    simpl. eauto.
  - destruct data as [data|]; [|done]. simpl in Hstep.
    destruct (terminals st !! i_terminalId data); injection Hstep as <-;
      (apply (overlays_spawned_mono st); [done| |done]); simpl; eauto.
  - destruct data as [data|]; [|done]. simpl in Hstep.
    destruct (terminals st !! r_terminalId data); [case_bool_decide; [done|]|]; injection Hstep as <-;
      (apply (overlays_spawned_mono st); [done| |done]); simpl; eauto.
  - destruct data as [data|]; [|done]. simpl in Hstep.
    destruct (terminals st !! s_terminalId data); injection Hstep as <-;
      (apply (overlays_spawned_mono st); [done| |done]); simpl; eauto.
  - destruct data as [data|]; [|done]. simpl in Hstep.
    destruct (terminals st !! m_terminalId data) as [t|],
      (cliProcesses st !! m_terminalId data); injection Hstep as <-;
      (apply (overlays_spawned_mono st); [done| |done]); simpl; eauto.
  - destruct data as [data|]; [|done]. simpl in Hstep.
    destruct (cliProcesses st !! p_terminalId data) as [cp|]; injection Hstep as <-;
      [|done].
    apply (overlays_spawned_mono st); [done| |done]. simpl.
    intros k c [_ Hk]%lookup_delete_Some.
    destruct (terminals st !! p_terminalId data); simpl in Hk; eauto.
  - injection Hstep as <-. apply (overlays_spawned_mono st); [done| |done].
    intros k c Hk%cleanup_cliProcesses_Some. eauto.
  - injection Hstep as <-. apply (overlays_spawned_mono st); [done| |done].
    unfold onData. destruct (ptys st !! h) as [p|]; simpl; eauto.
  - injection Hstep as <-. apply (overlays_spawned_mono st); [done| |done].
    rewrite onExit_cliProcesses. eauto.
  - injection Hstep as <-. unfold settle in *.
    destruct (probes st !! k) as [pr|] eqn:Hk; [|done].
    destruct (checkCLIAvailability spawn (pr_type pr)) as [|[|]|reason]; [done|..].
    + intros k' c Hk'. simpl in Hk'.
      apply lookup_insert_Some in Hk' as [[<- _]|[_ Hk']].
      * eapply spawned_for_later; [done|].
        destruct (Hpr pr) as (p & Hp & Hcb); [by eapply list_elem_of_lookup_2|].
        by exists (ptyProcess (pr_terminal pr)), p.
      * eapply spawned_for_later; [done|]. by eapply Hov.
    + apply (overlays_spawned_mono st); [done| |done]. simpl. eauto.
    + apply (overlays_spawned_mono st); [done| |done]. simpl. eauto.
Qed.

Lemma named_alter (f : Pty → Pty) (h : nat) (ps : list Pty) :
  (∀ p, cb_terminalId (f p) = cb_terminalId p) →
  Forall (λ p, p.(cb_terminalId) ≠ EmptyString) ps →
  Forall (λ p, p.(cb_terminalId) ≠ EmptyString) (alter f h ps).
Proof.
  intros Hf H. apply Forall_alter; [done|]. intros p _ Hp. by rewrite Hf.
Qed.

Lemma named_kill_all hs (ps : list Pty) :
  Forall (λ p, p.(cb_terminalId) ≠ EmptyString) ps →
  Forall (λ p, p.(cb_terminalId) ≠ EmptyString) (kill_all hs ps).
Proof.
  revert ps. induction hs as [|h hs IH]; intros ps H; [done|].
  simpl. by apply IH, named_alter.
Qed.

Lemma table_named_handle ev (st st' : Server) :
  table_named st → handle ev st = Returned st' → table_named st'.
Proof.
  unfold table_named. intros Hn Hstep.
  destruct ev as [sock data now|sock data|sock data|sock data|sock data
                  |sock data|sock|h data|h exitCode signal|k spawn now];
    simpl in Hstep.
  - injection Hstep as <-. simpl. apply Forall_app. split; [done|].
    apply Forall_singleton. simpl. apply or_string_nonempty, generated_id_nonempty.
  - destruct data as [data|]; [|done]. simpl in Hstep.
    destruct (terminals st !! i_terminalId data); injection Hstep as <-; [|done].
    by apply named_alter.
  - destruct data as [data|]; [|done]. simpl in Hstep.
    destruct (terminals st !! r_terminalId data); [case_bool_decide; [done|]|]; injection Hstep as <-; [|done].
    by apply named_alter.
  - destruct data as [data|]; [|done]. simpl in Hstep.
    by destruct (terminals st !! s_terminalId data); injection Hstep as <-.
  - destruct data as [data|]; [|done]. simpl in Hstep.
    destruct (terminals st !! m_terminalId data) as [t|],
      (cliProcesses st !! m_terminalId data); injection Hstep as <-; try done.
    by apply named_alter.
  - destruct data as [data|]; [|done]. simpl in Hstep.
    destruct (cliProcesses st !! p_terminalId data); injection Hstep as <-; [|done].
    destruct (terminals st !! p_terminalId data); [|done]. by apply named_alter.
  - injection Hstep as <-. rewrite cleanup_ptys. by apply named_kill_all.
  - injection Hstep as <-. unfold onData. by destruct (ptys st !! h) as [p|].
  - injection Hstep as <-. unfold onExit. destruct (ptys st !! h) as [p|]; [|done].
    by apply named_alter.
  - injection Hstep as <-. unfold settle. destruct (probes st !! k) as [p|]; [|done].
    destruct (checkCLIAvailability spawn (pr_type p)) as [|[|]|reason]; try done.
    by apply named_alter.
Qed.

Lemma overlays_active_handle ev (st st' : Server) :
  overlays_active st → handle ev st = Returned st' → overlays_active st'.
Proof.
  intros Ha Hstep.
  destruct ev as [sock data now|sock data|sock data|sock data|sock data
                  |sock data|sock|h data|h exitCode signal|k spawn now];
    simpl in Hstep.
  - by injection Hstep as <-.
  - destruct data as [data|]; [|done]. simpl in Hstep.
    by destruct (terminals st !! i_terminalId data); injection Hstep as <-.
  - destruct data as [data|]; [|done]. simpl in Hstep.
    by destruct (terminals st !! r_terminalId data); [case_bool_decide; [done|]|]; injection Hstep as <-.
  - destruct data as [data|]; [|done]. simpl in Hstep.
    by destruct (terminals st !! s_terminalId data); injection Hstep as <-.
  - destruct data as [data|]; [|done]. simpl in Hstep.
    by destruct (terminals st !! m_terminalId data) as [t|],
      (cliProcesses st !! m_terminalId data); injection Hstep as <-.
  - destruct data as [data|]; [|done]. simpl in Hstep.
    destruct (cliProcesses st !! p_terminalId data) as [cp|]; injection Hstep as <-;
      [|done].
    intros k c Hk. simpl in Hk. apply lookup_delete_Some in Hk as [_ Hk].
    destruct (terminals st !! p_terminalId data); simpl in Hk; by eapply Ha.
  - injection Hstep as <-. intros k c Hk%cleanup_cliProcesses_Some. by eapply Ha.
  - injection Hstep as <-. unfold onData. by destruct (ptys st !! h) as [p|].
  - injection Hstep as <-. intros k c. rewrite onExit_cliProcesses. apply Ha.
  - injection Hstep as <-. unfold settle. destruct (probes st !! k) as [p|]; [|done].
    destruct (checkCLIAvailability spawn (pr_type p)) as [|[|]|reason]; try done.
    intros k' c Hk'. simpl in Hk'.
    apply lookup_insert_Some in Hk' as [[_ <-]|[_ Hk']]; [done|by eapply Ha].
Qed.

Lemma server_inv_new root plat sh : server_inv (new_server root plat sh).
Proof.
  split; [apply wf_new|]. split; [by intros pr Hpr%elem_of_nil|].
  split; [intros k c Hk; simpl in Hk; by rewrite lookup_empty in Hk|].
  split; [by apply Forall_nil|].
  intros k c Hk. simpl in Hk. by rewrite lookup_empty in Hk.
Qed.

Lemma server_inv_handle ev (st st' : Server) :
  server_inv st → handle ev st = Returned st' → server_inv st'.
Proof.
  intros (Hwf & Hpr & Hov & Hn & Ha) Hstep.
  split; [by eapply wf_handle|]. split; [by eapply probes_wf_handle|].
  split; [by eapply overlays_spawned_handle|].
  split; [by eapply table_named_handle|by eapply overlays_active_handle].
Qed.

Lemma reachable_inv (st : Server) : reachable st → server_inv st.
Proof.
  induction 1 as [root plat sh|ev st st' _ IH Hstep];
    [apply server_inv_new|by eapply server_inv_handle].
Qed.

(** X1: in every state the server reaches, every overlay entry has its
    [active] flag set: the flag is written as [true] and never cleared. *)
Theorem overlay_active_flag_always_set (st : Server) (k : string) (c : CliProcess) :
  reachable st → st.(cliProcesses) !! k = Some c → c.(active) = true.
Proof. intros (_ & _ & _ & _ & Ha)%reachable_inv Hk. by eapply Ha. Qed.

Lemma overlay_active_flag_witness :
  active {| type := "claude"; active := true; startedAt := 1700000000100 |} = true.
Proof.
  apply (overlay_active_flag_always_set (state_after three_sessions) "a").
  - apply reachable_state_after.
  - vm_compute. reflexivity.
Defined.

(** X2: in every state the server reaches, an overlay entry sits under an
    identifier for which a process was spawned at some time; the process
    may have exited since, so the session need not exist any more. *)
Theorem overlay_only_for_spawned_identifier (st : Server) (k : string) (c : CliProcess) :
  reachable st → st.(cliProcesses) !! k = Some c → spawned_for st k.
Proof. intros (_ & _ & Hov & _)%reachable_inv Hk. by eapply Hov. Qed.

Lemma overlay_only_for_spawned_identifier_witness :
  spawned_for (state_after exit_after_start) "main-terminal".
Proof.
  apply (overlay_only_for_spawned_identifier (state_after exit_after_start)
           "main-terminal"
           {| type := "gemini"; active := true; startedAt := 1700000000100 |}).
  - apply reachable_state_after.
  - vm_compute. reflexivity.
Defined.

(** X3: no session and no overlay is ever registered under the empty
    identifier: a create with an empty identifier gets a generated one, and
    an overlay is only recorded under the identifier of a session. *)
Theorem empty_identifier_never_registered (st : Server) :
  reachable st →
  st.(terminals) !! EmptyString = None ∧ st.(cliProcesses) !! EmptyString = None.
Proof.
  intros (Hwf & _ & Hov & Hn & _)%reachable_inv. split.
  - destruct (terminals st !! EmptyString) as [t|] eqn:Ht; [|done].
    destruct (Hwf _ _ Ht) as (_ & p & Hp & _ & Hcb & _).
    unfold table_named in Hn. rewrite Forall_lookup in Hn. by destruct (Hn _ _ Hp).
  - destruct (cliProcesses st !! EmptyString) as [c|] eqn:Hc; [|done].
    destruct (Hov _ _ Hc) as (h & p & Hp & Hcb).
    unfold table_named in Hn. rewrite Forall_lookup in Hn. by destruct (Hn _ _ Hp).
Qed.

Lemma empty_identifier_never_registered_witness :
  (state_after [ev_terminal_create 1
                  (Some {| c_terminalId := Some EmptyString; c_cols := None;
                           c_rows := None; c_cwd := None |}) 7]).(terminals)
    !! EmptyString = None
  ∧ (state_after [ev_terminal_create 1
                    (Some {| c_terminalId := Some EmptyString; c_cols := None;
                             c_rows := None; c_cwd := None |}) 7]).(cliProcesses)
    !! EmptyString = None.
Proof.
  apply (empty_identifier_never_registered
           (state_after [ev_terminal_create 1
                           (Some {| c_terminalId := Some EmptyString; c_cols := None;
                                    c_rows := None; c_cwd := None |}) 7])).
  apply reachable_state_after.
Defined.

(** ** Notifications and history along a run *)

Lemma handle_outbox ev (st st' : Server) :
  handle ev st = Returned st' →
  st'.(outbox) = st.(outbox) ∨ ∃ n, st'.(outbox) = st.(outbox) ++ [n].
Proof.
  destruct ev as [sock data now|sock data|sock data|sock data|sock data
                  |sock data|sock|h data|h exitCode signal|k spawn now]; simpl.
  - intros [= <-]. right. by eexists.
  - destruct data as [data|]; [|done]. simpl.
    destruct (terminals st !! i_terminalId data); intros [= <-]; by left.
  - destruct data as [data|]; [|done]. simpl.
    destruct (terminals st !! r_terminalId data); [case_bool_decide; [done|]|]; intros [= <-]; by left.
  - destruct data as [data|]; [|done]. simpl.
    destruct (terminals st !! s_terminalId data); intros [= <-];
      [by left|right; by eexists].
  - destruct data as [data|]; [|done]. simpl.
    destruct (terminals st !! m_terminalId data) as [t|],
      (cliProcesses st !! m_terminalId data); intros [= <-]; right; by eexists.
  - destruct data as [data|]; [|done]. simpl.
    destruct (cliProcesses st !! p_terminalId data); intros [= <-]; [|by left].
    right. destruct (terminals st !! p_terminalId data); by eexists.
  - intros [= <-]. left. by rewrite cleanup_is_batch.
  - intros [= <-]. unfold onData. destruct (ptys st !! h) as [p|]; [|by left].
    right. by eexists.
  - intros [= <-]. unfold onExit. destruct (ptys st !! h) as [p|]; [|by left].
    right. by eexists.
  - intros [= <-]. unfold settle. destruct (probes st !! k) as [p|]; [|by left].
    destruct (checkCLIAvailability spawn (pr_type p)) as [|[|]|reason];
      [by left|right; by eexists..].
Qed.

(** X4: along any run of events that returns, history is never rewritten:
    every process stays in the table under its handle with the same spawn
    arguments and callbacks, an exit is never undone, signals and written
    input only accumulate; no notification is retracted, and each event
    adds at most one. *)
Theorem run_never_rewrites_history (evs : list Event) (st st' : Server) :
  run evs st = Returned st' →
  table_later st st'
  ∧ st.(outbox) `prefix_of` st'.(outbox)
  ∧ length st'.(outbox) ≤ length st.(outbox) + length evs.
Proof.
  revert st. induction evs as [|ev evs IH]; intros st; simpl.
  - intros [= <-]. split; [apply table_later_refl|]. split; [done|lia].
  - destruct (handle ev st) as [st1|] eqn:E; [|done]. intros Hrun.
    destruct (IH st1 Hrun) as (Hl & Hpre & Hlen).
    split; [eapply table_later_trans; [by eapply handle_table_later|done]|].
    destruct (handle_outbox _ _ _ E) as [Ho|[n Ho]]; rewrite Ho in *.
    + split; [done|lia].
    + split; [etrans; [by apply prefix_app_r|done]|].
      rewrite length_app in Hlen. simpl in Hlen. lia.
Qed.

Lemma run_never_rewrites_history_witness :
  table_later fresh_server (state_after exit_after_start)
  ∧ fresh_server.(outbox) `prefix_of` (state_after exit_after_start).(outbox)
  ∧ length (state_after exit_after_start).(outbox)
    ≤ length fresh_server.(outbox) + length exit_after_start.
Proof.
  apply (run_never_rewrites_history exit_after_start fresh_server
           (state_after exit_after_start)).
  vm_compute. reflexivity.
Defined.

(** ** Disconnect, repeated and reordered *)

Lemma cleanup_batch_nil (st : Server) : cleanup_batch [] st = st.
Proof. by destruct st. Qed.

Lemma owned_sessions_nil sock (st : Server) :
  (∀ tid t, st.(terminals) !! tid = Some t → t.(socket) ≠ sock) →
  owned_sessions sock st = [].
Proof.
  intros H. destruct (owned_sessions sock st) as [|[k t] l] eqn:E; [done|].
  assert ((k, t) ∈ owned_sessions sock st) as [Ht Hs]%elem_of_owned_sessions.
  { rewrite E. apply elem_of_cons. by left. }
  by destruct (H k t Ht).
Qed.

(** X5: a disconnect of a connection that owns no session changes nothing
    at all: no process is signalled, no entry removed, nothing emitted. *)
Theorem cleanup_without_sessions_is_noop (sock : Socket) (st : Server) :
  (∀ tid t, st.(terminals) !! tid = Some t → t.(socket) ≠ sock) →
  cleanup sock st = st.
Proof.
  intros H. rewrite cleanup_is_batch, owned_sessions_nil by done.
  apply cleanup_batch_nil.
Qed.

Lemma cleanup_without_sessions_witness :
  cleanup 7 (state_after three_sessions) = state_after three_sessions.
Proof.
  apply (cleanup_without_sessions_is_noop 7 (state_after three_sessions)).
  intros tid t Ht.
  assert ((tid, t) ∈ map_to_list (state_after three_sessions).(terminals)) as Hin
    by (by apply elem_of_map_to_list).
  set (l := map_to_list _) in Hin. vm_compute in l. subst l.
  repeat (apply elem_of_cons in Hin as [[= -> ->]|Hin]; [simpl; lia|]).
  by apply elem_of_nil in Hin.
Defined.

(** X6: [cleanup] is idempotent: handling the disconnect of the same
    connection a second time changes nothing. *)
Theorem cleanup_idempotent (sock : Socket) (st : Server) :
  cleanup sock (cleanup sock st) = cleanup sock st.
Proof.
  rewrite (cleanup_is_batch sock (cleanup sock st)), cleanup_no_residue.
  apply cleanup_batch_nil.
Qed.

Lemma server_eq (st1 st2 : Server) :
  st1.(terminals) = st2.(terminals) → st1.(cliProcesses) = st2.(cliProcesses) →
  st1.(ptys) = st2.(ptys) → st1.(outbox) = st2.(outbox) →
  st1.(probes) = st2.(probes) → st1.(workspaceRoot) = st2.(workspaceRoot) →
  st1.(platform) = st2.(platform) → st1.(env_SHELL) = st2.(env_SHELL) →
  st1 = st2.
Proof. destruct st1, st2. simpl. by intros -> -> -> -> -> -> -> ->. Qed.

Lemma cleanup_terminals_lookup sock (st : Server) k :
  (cleanup sock st).(terminals) !! k
  = match st.(terminals) !! k with
    | Some t => if decide (t.(socket) = sock) then None else Some t
    | None => None
    end.
Proof.
  destruct (terminals st !! k) as [t|] eqn:Ht.
  - destruct (decide (socket t = sock)) as [Hs|Hs].
    + by destruct (cleanup_owned sock st k t Ht Hs).
    + destruct (cleanup_not_owned sock st k) as [-> _]; [congruence|done].
  - destruct (cleanup_not_owned sock st k) as [-> _]; [congruence|done].
Qed.

Lemma cleanup_cliProcesses_lookup sock (st : Server) k :
  (cleanup sock st).(cliProcesses) !! k
  = match st.(terminals) !! k with
    | Some t => if decide (t.(socket) = sock) then None else st.(cliProcesses) !! k
    | None => st.(cliProcesses) !! k
    end.
Proof.
  destruct (terminals st !! k) as [t|] eqn:Ht.
  - destruct (decide (socket t = sock)) as [Hs|Hs].
    + by destruct (cleanup_owned sock st k t Ht Hs).
    + destruct (cleanup_not_owned sock st k) as [_ ->]; [congruence|done].
  - destruct (cleanup_not_owned sock st k) as [_ ->]; [congruence|done].
Qed.

Lemma cleanup_ptys_lookup sock (st : Server) h :
  registry_wf st →
  (cleanup sock st).(ptys) !! h
  = if decide (h ∈ ptyProcess <$> (owned_sessions sock st).*2)
    then signalled <$> st.(ptys) !! h else st.(ptys) !! h.
Proof.
  intros Hwf. rewrite cleanup_ptys. case_decide.
  - apply lookup_kill_all_in; [by apply NoDup_owned_handles|done].
  - by apply lookup_kill_all_notin.
Qed.

Lemma owned_handle_after_other sock1 sock2 (st : Server) h :
  sock1 ≠ sock2 →
  h ∈ ptyProcess <$> (owned_sessions sock1 (cleanup sock2 st)).*2
  ↔ h ∈ ptyProcess <$> (owned_sessions sock1 st).*2.
Proof.
  intros Hne. rewrite !owned_handle. split.
  - intros (k & t & Ht & Hs & Hh). exists k, t. split; [|done].
    rewrite cleanup_terminals_lookup in Ht.
    destruct (terminals st !! k) as [t0|]; [|done]. by case_decide.
  - intros (k & t & Ht & Hs & Hh). exists k, t. split; [|done].
    rewrite cleanup_terminals_lookup, Ht. case_decide; [congruence|done].
Qed.

Lemma owned_handles_disjoint sock1 sock2 (st : Server) h :
  registry_wf st → sock1 ≠ sock2 →
  h ∈ ptyProcess <$> (owned_sessions sock1 st).*2 →
  h ∈ ptyProcess <$> (owned_sessions sock2 st).*2 → False.
Proof.
  intros Hwf Hne (k1 & t1 & Ht1 & Hs1 & Hh1)%owned_handle
    (k2 & t2 & Ht2 & Hs2 & Hh2)%owned_handle.
  assert (k1 = k2) as -> by (eapply wf_handle_inj; [done..|congruence]).
  congruence.
Qed.

Lemma wf_cleanup sock (st : Server) : registry_wf st → registry_wf (cleanup sock st).
Proof. apply wf_cleanup_loop. Qed.

(** X7: the disconnects of two connections commute: whichever is handled
    first, the same sessions and overlays are removed and the same processes
    get one signal each. *)
Theorem cleanup_commutes (sock1 sock2 : Socket) (st : Server) :
  reachable st →
  cleanup sock1 (cleanup sock2 st) = cleanup sock2 (cleanup sock1 st).
Proof.
  intros Hwf%reachable_wf.
  destruct (decide (sock1 = sock2)) as [->|Hne]; [done|].
  apply server_eq; try (by rewrite !cleanup_is_batch).
  - apply map_eq. intros k. rewrite !cleanup_terminals_lookup.
    destruct (terminals st !! k) as [t|]; [|done].
    destruct (decide (socket t = sock1)), (decide (socket t = sock2)); simpl;
      by repeat case_decide.
  - apply map_eq. intros k.
    rewrite !cleanup_cliProcesses_lookup, !cleanup_terminals_lookup.
    destruct (terminals st !! k) as [t|]; [|done].
    destruct (decide (socket t = sock1)), (decide (socket t = sock2)); simpl;
      by repeat case_decide.
  - apply list_eq. intros h.
    rewrite (cleanup_ptys_lookup sock1) by (by apply wf_cleanup).
    rewrite (cleanup_ptys_lookup sock2 (cleanup sock1 st)) by (by apply wf_cleanup).
    rewrite !(cleanup_ptys_lookup _ st) by done.
    pose proof (owned_handle_after_other sock1 sock2 st h Hne) as H12.
    pose proof (owned_handle_after_other sock2 sock1 st h (not_eq_sym Hne)) as H21.
    pose proof (owned_handles_disjoint sock1 sock2 st h Hwf Hne) as Hdis.
    repeat case_decide; tauto.
Qed.

Lemma cleanup_commutes_witness :
  cleanup 1 (cleanup 2 (state_after three_sessions))
  = cleanup 2 (cleanup 1 (state_after three_sessions)).
Proof.
  apply (cleanup_commutes 1 2 (state_after three_sessions)).
  apply reachable_state_after.
Defined.

(** ** A session and its process *)

Lemma or_string_truthy (s d : string) : s ≠ EmptyString → or_string (Some s) d = s.
Proof. by destruct s. Qed.

Lemma createTerminal_named sock tid cols rows cwd now (st : Server) :
  tid ≠ EmptyString →
  (createTerminal sock
     (Some {| c_terminalId := Some tid; c_cols := cols; c_rows := rows; c_cwd := cwd |})
     now st).2.(terminals) !! tid
  = Some {| id := tid; ptyProcess := length st.(ptys); socket := sock;
            createdAt := now |}.
Proof.
  intros Htid. destruct tid as [|c s]; [done|].
  unfold createTerminal. simpl. by rewrite lookup_insert_eq.
Qed.

(** X8: for a session in the registry of a reachable state, input is
    written to a process that has not exited, and it is that same process
    whose output and exit are reported to the session's socket under the
    session's identifier; its exit removes the session's entry. *)
Theorem session_io_same_process (st : Server) (tid : string) (t : Terminal) :
  reachable st → st.(terminals) !! tid = Some t →
  ∃ p, st.(ptys) !! t.(ptyProcess) = Some p ∧ p.(pty_exited) = false
    ∧ (∀ input, ∃ st',
         on_terminal_input (Some {| i_terminalId := tid; i_input := input |}) st
           = Returned st'
         ∧ st'.(ptys) !! t.(ptyProcess) = Some (written input p)
         ∧ (∀ h, h ≠ t.(ptyProcess) → st'.(ptys) !! h = st.(ptys) !! h))
    ∧ (∀ data, onData t.(ptyProcess) data st
               = emit t.(socket) (terminal_output tid data) st)
    ∧ (∀ exitCode signal,
         (onExit t.(ptyProcess) exitCode signal st).(outbox)
           = st.(outbox) ++ [(t.(socket), terminal_exit tid exitCode signal)]
         ∧ (onExit t.(ptyProcess) exitCode signal st).(terminals)
           = delete tid st.(terminals)).
Proof.
  intros Hwf%reachable_wf Ht.
  destruct (Hwf tid t Ht) as (_ & p & Hp & Hex & Hcb & Hsock).
  exists p. split; [done|]. split; [done|]. split; [|split].
  - intros input. eexists. unfold on_terminal_input. simpl. rewrite Ht.
    split; [done|]. simpl. split.
    + by rewrite list_lookup_alter_eq, Hp.
    + intros h Hh. by rewrite list_lookup_alter_ne.
  - intros data. unfold onData. by rewrite Hp, Hcb, Hsock.
  - intros exitCode signal.
    destruct (onExit_live _ exitCode signal st p Hp Hex) as [-> ->].
    by rewrite Hcb, Hsock.
Qed.

Lemma session_io_same_process_witness :
  ∃ p, (state_after three_sessions).(ptys) !! 1 = Some p ∧ p.(pty_exited) = false
    ∧ (∀ input, ∃ st',
         on_terminal_input (Some {| i_terminalId := "b"; i_input := input |})
           (state_after three_sessions) = Returned st'
         ∧ st'.(ptys) !! 1 = Some (written input p)
         ∧ (∀ h, h ≠ 1 → st'.(ptys) !! h = (state_after three_sessions).(ptys) !! h))
    ∧ (∀ data, onData 1 data (state_after three_sessions)
               = emit 1 (terminal_output "b" data) (state_after three_sessions))
    ∧ (∀ exitCode signal,
         (onExit 1 exitCode signal (state_after three_sessions)).(outbox)
           = (state_after three_sessions).(outbox)
             ++ [(1, terminal_exit "b" exitCode signal)]
         ∧ (onExit 1 exitCode signal (state_after three_sessions)).(terminals)
           = delete "b" (state_after three_sessions).(terminals)).
Proof.
  apply (session_io_same_process (state_after three_sessions) "b"
           {| id := "b"; ptyProcess := 1; socket := 1; createdAt := 1700000000001 |}).
  - apply reachable_state_after.
  - vm_compute. reflexivity.
Defined.

(** X9: once the process of a registered session has reported exit, the
    identifier is free: input and resize for it are dropped, whatever the
    size asked for, a start is answered with [Terminal not found], and a
    create under the same identifier registers a new process under a new
    handle. *)
Theorem exit_frees_identifier (st : Server) (tid : string) (t : Terminal)
    (exitCode : Z) (signal : option Z) :
  reachable st → st.(terminals) !! tid = Some t →
  (onExit t.(ptyProcess) exitCode signal st).(terminals) !! tid = None
  ∧ (∀ input,
       on_terminal_input (Some {| i_terminalId := tid; i_input := input |})
         (onExit t.(ptyProcess) exitCode signal st)
       = Returned (onExit t.(ptyProcess) exitCode signal st))
  ∧ (∀ cols rows,
       on_terminal_resize (Some {| r_terminalId := tid; r_cols := cols; r_rows := rows |})
         (onExit t.(ptyProcess) exitCode signal st)
       = Returned (onExit t.(ptyProcess) exitCode signal st))
  ∧ (∀ sock kind,
       startCLI sock (Some {| s_type := kind; s_terminalId := tid |})
         (onExit t.(ptyProcess) exitCode signal st)
       = Returned (emit sock (cli_error "Terminal not found" None)
                     (onExit t.(ptyProcess) exitCode signal st)))
  ∧ (∀ sock cols rows cwd now,
       ptyProcess <$>
         (createTerminal sock
            (Some {| c_terminalId := Some tid; c_cols := cols; c_rows := rows;
                     c_cwd := cwd |}) now
            (onExit t.(ptyProcess) exitCode signal st)).2.(terminals) !! tid
       = Some (length st.(ptys))
       ∧ t.(ptyProcess) ≠ length st.(ptys)).
Proof.
  intros Hr Ht. pose proof (reachable_inv _ Hr) as (Hwf & _ & _ & Hn & _).
  destruct (Hwf tid t Ht) as (_ & p & Hp & Hex & Hcb & Hsock).
  assert (tid ≠ EmptyString) as Htid.
  { unfold table_named in Hn. rewrite Forall_lookup in Hn. rewrite <- Hcb. by eapply Hn. }
  assert ((onExit (ptyProcess t) exitCode signal st).(terminals) !! tid = None) as Ht'.
  { destruct (onExit_live _ exitCode signal st p Hp Hex) as [_ ->].
    rewrite Hcb. apply lookup_delete_eq. }
  assert (length (onExit (ptyProcess t) exitCode signal st).(ptys) = length st.(ptys))
    as Hlen.
  { unfold onExit. rewrite Hp. simpl. apply length_alter. }
  split; [done|]. split; [|split; [|split]].
  - intros input. unfold on_terminal_input. simpl. by rewrite Ht'.
  - intros cols rows. unfold on_terminal_resize. simpl. by rewrite Ht'.
  - intros sock kind. unfold startCLI. simpl. by rewrite Ht'.
  - intros sock cols rows cwd now. split; [|by apply lookup_lt_Some in Hp; lia].
    rewrite createTerminal_named by done. simpl. by rewrite Hlen.
Qed.

Lemma exit_frees_identifier_witness :
  (onExit 1 0 None (state_after three_sessions)).(terminals) !! "b" = None
  ∧ (∀ input,
       on_terminal_input (Some {| i_terminalId := "b"; i_input := input |})
         (onExit 1 0 None (state_after three_sessions))
       = Returned (onExit 1 0 None (state_after three_sessions)))
  ∧ (∀ cols rows,
       on_terminal_resize (Some {| r_terminalId := "b"; r_cols := cols; r_rows := rows |})
         (onExit 1 0 None (state_after three_sessions))
       = Returned (onExit 1 0 None (state_after three_sessions)))
  ∧ (∀ sock kind,
       startCLI sock (Some {| s_type := kind; s_terminalId := "b" |})
         (onExit 1 0 None (state_after three_sessions))
       = Returned (emit sock (cli_error "Terminal not found" None)
                     (onExit 1 0 None (state_after three_sessions))))
  ∧ (∀ sock cols rows cwd now,
       ptyProcess <$>
         (createTerminal sock
            (Some {| c_terminalId := Some "b"; c_cols := cols; c_rows := rows;
                     c_cwd := cwd |}) now
            (onExit 1 0 None (state_after three_sessions))).2.(terminals) !! "b"
       = Some (length (state_after three_sessions).(ptys))
       ∧ 1 ≠ length (state_after three_sessions).(ptys)).
Proof.
  apply (exit_frees_identifier (state_after three_sessions) "b"
           {| id := "b"; ptyProcess := 1; socket := 1; createdAt := 1700000000001 |}
           0 None).
  - apply reachable_state_after.
  - vm_compute. reflexivity.
Defined.

(** ** The overlay across create, start, stop and command *)

(** X10: [createTerminal] never looks at [cliProcesses]: a session created
    under an identifier that still has an overlay entry inherits it, and a
    command for it is accepted at once, without any start: it is written to
    the new process and echoed with the inherited kind. *)
Theorem create_inherits_overlay (sock : Socket) (tid : string) (cols rows : option N)
    (cwd : option string) (now : N) (command : string) (ctx : option Context)
    (st : Server) (c : CliProcess) :
  tid ≠ EmptyString → st.(cliProcesses) !! tid = Some c →
  ∃ st2,
    sendCLICommand sock
      (Some {| m_terminalId := tid; m_command := command; m_context := ctx |})
      (createTerminal sock
         (Some {| c_terminalId := Some tid; c_cols := cols; c_rows := rows;
                  c_cwd := cwd |}) now st).2
    = Returned st2
    ∧ last st2.(outbox)
      = Some (sock, cli_command_sent tid (buildEnrichedPrompt command ctx) c.(type))
    ∧ pty_input <$> st2.(ptys) !! length st.(ptys)
      = Some [buildEnrichedPrompt command ctx +:+ CR].
Proof.
  intros Htid Hc.
  pose proof (createTerminal_named sock tid cols rows cwd now st Htid) as Hnew.
  remember (createTerminal sock
              (Some {| c_terminalId := Some tid; c_cols := cols; c_rows := rows;
                       c_cwd := cwd |}) now st).2 as st1 eqn:E.
  assert (st1.(cliProcesses) = st.(cliProcesses)) as Hcli by (by subst st1).
  assert (∃ p, st1.(ptys) = st.(ptys) ++ [p] ∧ p.(pty_input) = []) as (p & Hptys & Hin).
  { subst st1. by eexists. }
  clear E. eexists. unfold sendCLICommand. simpl. rewrite Hnew, Hcli, Hc.
  split; [done|]. simpl. split; [by rewrite last_snoc|].
  rewrite Hptys, list_lookup_alter_eq, list_lookup_middle by done.
  simpl. by rewrite Hin.
Qed.

Lemma create_inherits_overlay_witness :
  ∃ st2,
    sendCLICommand 5
      (Some {| m_terminalId := "main-terminal"; m_command := "explain";
               m_context := None |})
      (createTerminal 5
         (Some {| c_terminalId := Some "main-terminal"; c_cols := None; c_rows := None;
                  c_cwd := None |}) 1700000009000 (state_after exit_after_start)).2
    = Returned st2
    ∧ last st2.(outbox)
      = Some (5, cli_command_sent "main-terminal" (buildEnrichedPrompt "explain" None)
                   "gemini")
    ∧ pty_input <$> st2.(ptys) !! length (state_after exit_after_start).(ptys)
      = Some [buildEnrichedPrompt "explain" None +:+ CR].
Proof.
  apply (create_inherits_overlay 5 "main-terminal" None None None 1700000009000
           "explain" None (state_after exit_after_start)
           {| type := "gemini"; active := true; startedAt := 1700000000100 |}).
  - discriminate.
  - vm_compute. reflexivity.
Defined.

(** X11: after a stop has been handled, the identifier has no overlay: a
    second stop changes nothing and emits nothing, and a command is answered
    with the [CLI not active] error, whoever sends it. *)
Theorem stop_then_command (sock sock' : Socket) (tid command : string)
    (ctx : option Context) (st st' : Server) :
  stopCLI sock (Some {| p_terminalId := tid |}) st = Returned st' →
  st'.(cliProcesses) !! tid = None
  ∧ stopCLI sock' (Some {| p_terminalId := tid |}) st' = Returned st'
  ∧ sendCLICommand sock'
      (Some {| m_terminalId := tid; m_command := command; m_context := ctx |}) st'
    = Returned (emit sock' (cli_error "CLI not active" None) st').
Proof.
  intros Hstop.
  assert (st'.(cliProcesses) !! tid = None) as Hnone.
  { unfold stopCLI in Hstop. simpl in Hstop.
    destruct (cliProcesses st !! tid) as [c|] eqn:Hc; injection Hstop as <-; [|done].
    simpl. apply lookup_delete_eq. }
  split; [done|]. unfold stopCLI, sendCLICommand. simpl. rewrite Hnone.
  split; [done|]. by destruct (terminals st' !! tid).
Qed.

Lemma stop_then_command_witness :
  (emit 1 (cli_stopped "a" "claude")
     (set_cliProcesses (delete "a")
        (pty_write 0 ETX (state_after three_sessions)))).(cliProcesses) !! "a" = None
  ∧ stopCLI 2 (Some {| p_terminalId := "a" |})
      (emit 1 (cli_stopped "a" "claude")
         (set_cliProcesses (delete "a") (pty_write 0 ETX (state_after three_sessions))))
    = Returned
        (emit 1 (cli_stopped "a" "claude")
           (set_cliProcesses (delete "a") (pty_write 0 ETX (state_after three_sessions))))
  ∧ sendCLICommand 2
      (Some {| m_terminalId := "a"; m_command := "explain"; m_context := None |})
      (emit 1 (cli_stopped "a" "claude")
         (set_cliProcesses (delete "a") (pty_write 0 ETX (state_after three_sessions))))
    = Returned
        (emit 2 (cli_error "CLI not active" None)
           (emit 1 (cli_stopped "a" "claude")
              (set_cliProcesses (delete "a")
                 (pty_write 0 ETX (state_after three_sessions))))).
Proof.
  apply (stop_then_command 1 2 "a" "explain" None (state_after three_sessions)).
  unfold stopCLI. simpl.
  assert ((state_after three_sessions).(cliProcesses) !! "a"
          = Some {| type := "claude"; active := true; startedAt := 1700000000100 |})
    as -> by (vm_compute; reflexivity).
  assert ((state_after three_sessions).(terminals) !! "a"
          = Some {| id := "a"; ptyProcess := 0; socket := 1;
                    createdAt := 1700000000000 |})
    as -> by (vm_compute; reflexivity).
  reflexivity.
Defined.

Lemma delete_last_app {A} (l : list A) (x : A) : delete (length l) (l ++ [x]) = l.
Proof.
  induction l as [|y l IH]; [done|]. simpl. f_equal. exact IH.
Qed.

(** X12: a start for a live session changes nothing visible until the
    version probe settles; if the probe never settles nothing ever happens.
    When it reports the CLI available, the launch line is written to the
    process captured at start time, the overlay is recorded with the kind,
    [active] and the clock, and a started notification goes to the
    requester; when it reports it missing, only an error goes out, whose
    install hint is the gemini one for kind [gemini] and the claude one for
    every other kind; when the probe is rejected, only an error with the
    message of the rejection goes out.  In each of the three cases the probe
    is no longer pending. *)
Theorem start_then_probe (sock : Socket) (kind tid : string) (t : Terminal)
    (spawn : string → list string → Spawned) (now : N) (st : Server) :
  st.(terminals) !! tid = Some t →
  ∃ st1,
    startCLI sock (Some {| s_type := kind; s_terminalId := tid |}) st = Returned st1
    ∧ st1.(terminals) = st.(terminals) ∧ st1.(cliProcesses) = st.(cliProcesses)
    ∧ st1.(ptys) = st.(ptys) ∧ st1.(outbox) = st.(outbox)
    ∧ (checkCLIAvailability spawn kind = Pending →
       settle (length st.(probes)) spawn now st1 = st1)
    ∧ (checkCLIAvailability spawn kind = Fulfilled true →
       settle (length st.(probes)) spawn now st1
       = emit sock (cli_started tid kind (kind +:+ " CLI started successfully"))
           (set_cliProcesses
              (insert tid {| type := kind; active := true; startedAt := now |})
              (pty_write t.(ptyProcess) (kind +:+ CR) st)))
    ∧ (checkCLIAvailability spawn kind = Fulfilled false →
       settle (length st.(probes)) spawn now st1
       = emit sock
           (cli_error (kind +:+ " CLI not installed")
              (Some (if bool_decide (kind = "gemini")
                     then "Install with: npm install -g @google/gemini-cli"
                     else "Install with: npm install -g @anthropic-ai/claude-cli")))
           st)
    ∧ (∀ reason, checkCLIAvailability spawn kind = Rejected reason →
       settle (length st.(probes)) spawn now st1
       = emit sock (cli_error reason None) st).
Proof.
  intros Ht. eexists. unfold startCLI. simpl. rewrite Ht.
  split; [done|]. repeat (split; [done|]).
  unfold settle. simpl. rewrite list_lookup_middle by done. simpl.
  repeat split; [intros ->|intros ->|intros ->|intros reason ->]; [done|..];
    unfold startCLI_then, startCLI_catch, set_probes, pty_write, set_ptys,
      set_cliProcesses, emit; simpl; rewrite delete_last_app; by destruct st.
Qed.

Lemma start_then_probe_witness :
  ∃ st1,
    startCLI 1 (Some {| s_type := "aider"; s_terminalId := "b" |})
      (state_after three_sessions) = Returned st1
    ∧ st1.(terminals) = (state_after three_sessions).(terminals)
    ∧ st1.(cliProcesses) = (state_after three_sessions).(cliProcesses)
    ∧ st1.(ptys) = (state_after three_sessions).(ptys)
    ∧ st1.(outbox) = (state_after three_sessions).(outbox)
    ∧ (checkCLIAvailability (λ _ _, spawn_child [child_error]) "aider" = Pending →
       settle (length (state_after three_sessions).(probes)) (λ _ _, spawn_child [child_error])
         1700000009000 st1 = st1)
    ∧ (checkCLIAvailability (λ _ _, spawn_child [child_error]) "aider" = Fulfilled true →
       settle (length (state_after three_sessions).(probes)) (λ _ _, spawn_child [child_error])
         1700000009000 st1
       = emit 1 (cli_started "b" "aider" ("aider" +:+ " CLI started successfully"))
           (set_cliProcesses
              (insert "b" {| type := "aider"; active := true;
                             startedAt := 1700000009000 |})
              (pty_write 1 ("aider" +:+ CR) (state_after three_sessions))))
    ∧ (checkCLIAvailability (λ _ _, spawn_child [child_error]) "aider" = Fulfilled false →
       settle (length (state_after three_sessions).(probes)) (λ _ _, spawn_child [child_error])
         1700000009000 st1
       = emit 1
           (cli_error ("aider" +:+ " CLI not installed")
              (Some (if bool_decide ("aider" = "gemini")
                     then "Install with: npm install -g @google/gemini-cli"
                     else "Install with: npm install -g @anthropic-ai/claude-cli")))
           (state_after three_sessions))
    ∧ (∀ reason,
         checkCLIAvailability (λ _ _, spawn_child [child_error]) "aider" = Rejected reason →
         settle (length (state_after three_sessions).(probes))
           (λ _ _, spawn_child [child_error]) 1700000009000 st1
         = emit 1 (cli_error reason None) (state_after three_sessions)).
Proof.
  apply (start_then_probe 1 "aider" "b"
           {| id := "b"; ptyProcess := 1; socket := 1; createdAt := 1700000000001 |}
           (λ _ _, spawn_child [child_error]) 1700000009000 (state_after three_sessions)).
  vm_compute. reflexivity.
Defined.

(** * The HTTP routes *)

(** ** The directory listing *)

Lemma sort_insert_perm {A} (compare : A → A → Z) (x : A) (l : list A) :
  sort_insert compare x l ≡ₚ x :: l.
Proof.
  induction l as [|y l IH]; simpl; [done|].
  destruct (compare x y <=? 0)%Z; [done|]. rewrite IH. apply Permutation_swap.
Qed.

Lemma sort_perm {A} (compare : A → A → Z) (l : list A) : sort compare l ≡ₚ l.
Proof.
  induction l as [|x l IH]; simpl; [done|].
  unfold sort in *. simpl. by rewrite sort_insert_perm, IH.
Qed.

Lemma sort_insert_directories_first (node : Node) (x : Item) (ds fs : list Item) :
  Forall (λ i, i.(item_type) = directory) ds →
  Forall (λ i, i.(item_type) = file) fs →
  directories_first (sort_insert (compare_items node) x (ds ++ fs)).
Proof.
  intros Hds Hfs. induction Hds as [|d ds Hd Hds IH]; simpl.
  - destruct (item_type x) eqn:Hx.
    + destruct Hfs as [|f fs Hf Hfs]; simpl.
      * exists [x], []. by repeat constructor.
      * unfold compare_items at 1. rewrite Hx, Hf. simpl.
        exists [x], (f :: fs). by repeat constructor.
    + exists [], (sort_insert (compare_items node) x fs). split; [done|].
      split; [constructor|]. rewrite sort_insert_perm. by constructor.
  - destruct (compare_items node x d <=? 0)%Z eqn:Hc.
    + destruct (item_type x) eqn:Hx.
      * exists (x :: d :: ds), fs. by repeat constructor.
      * unfold compare_items in Hc. by rewrite Hx, Hd in Hc.
    + destruct IH as (ds' & fs' & -> & Hds' & Hfs').
      exists (d :: ds'), fs'. by repeat constructor.
Qed.

Lemma sort_directories_first (node : Node) (l : list Item) :
  directories_first (sort (compare_items node) l).
Proof.
  induction l as [|x l IH].
  - exists [], []. by repeat constructor.
  - destruct IH as (ds & fs & E & Hds & Hfs). unfold sort in *. simpl. rewrite E.
    by apply sort_insert_directories_first.
Qed.

Lemma stat_items_resolved (node : Node) (root dirPath : string) (items : list string)
    (result : list Item) :
  stat_items node root dirPath items = resolved result →
  item_name <$> result = items
  ∧ Forall (λ i, ∃ stats,
              node.(fs_stat) (node.(path_join) dirPath i.(item_name)) = resolved stats
              ∧ i.(item_path)
                = node.(path_relative) root (node.(path_join) dirPath i.(item_name))
              ∧ (i.(item_type) = directory ↔ stats.(stat_isDirectory) = true)
              ∧ i.(item_size) = stats.(stat_size)
              ∧ i.(item_modified) = stats.(stat_mtime)) result.
Proof.
  revert result. induction items as [|item items IH]; intros result; simpl.
  - intros [= <-]. by split.
  - destruct (fs_stat node (path_join node dirPath item)) as [stats|] eqn:Hs; [|done].
    destruct (stat_items node root dirPath items) as [rest|]; [|done].
    intros [= <-]. destruct (IH rest eq_refl) as [Hn Hall].
    split; [by rewrite fmap_cons, Hn|]. constructor; [|done].
    exists stats. simpl. repeat split; try done; by destruct (stat_isDirectory stats).
Qed.

(** X14: when the directory listing succeeds, it lists exactly the entries
    [readdir] gave, each once, every one described by its own [stat] (type,
    size, time) with its path relative to the workspace, and all
    directories come before all files. *)
Theorem listing_is_sorted_permutation (node : Node) (root dirPath : string)
    (result : list Item) :
  getDirectoryContents node root dirPath = resolved result →
  ∃ items, node.(fs_readdir) dirPath = resolved items
    ∧ item_name <$> result ≡ₚ items
    ∧ directories_first result
    ∧ Forall (λ i, ∃ stats,
                node.(fs_stat) (node.(path_join) dirPath i.(item_name)) = resolved stats
                ∧ i.(item_path)
                  = node.(path_relative) root (node.(path_join) dirPath i.(item_name))
                ∧ (i.(item_type) = directory ↔ stats.(stat_isDirectory) = true)
                ∧ i.(item_size) = stats.(stat_size)
                ∧ i.(item_modified) = stats.(stat_mtime)) result.
Proof.
  unfold getDirectoryContents.
  destruct (fs_readdir node dirPath) as [items|]; [|done].
  destruct (stat_items node root dirPath items) as [unsorted|] eqn:E; [|done].
  intros [= <-]. destruct (stat_items_resolved _ _ _ _ _ E) as [Hn Hall].
  exists items. split; [done|].
  split; [by rewrite sort_perm, Hn|].
  split; [apply sort_directories_first|]. by rewrite sort_perm.
Qed.

Lemma listing_is_sorted_permutation_witness :
  ∃ items, sample_node.(fs_readdir) "/workspace" = resolved items
    ∧ item_name <$>
        [{| item_name := "b"; item_path := "b"; item_type := directory;
            item_size := 4096; item_modified := 1700000000500 |};
         {| item_name := "a.txt"; item_path := "a.txt"; item_type := file;
            item_size := 10; item_modified := 1700000000000 |}] ≡ₚ items
    ∧ directories_first
        [{| item_name := "b"; item_path := "b"; item_type := directory;
            item_size := 4096; item_modified := 1700000000500 |};
         {| item_name := "a.txt"; item_path := "a.txt"; item_type := file;
            item_size := 10; item_modified := 1700000000000 |}]
    ∧ Forall (λ i, ∃ stats,
                sample_node.(fs_stat) (sample_node.(path_join) "/workspace" i.(item_name))
                  = resolved stats
                ∧ i.(item_path)
                  = sample_node.(path_relative) "/workspace"
                      (sample_node.(path_join) "/workspace" i.(item_name))
                ∧ (i.(item_type) = directory ↔ stats.(stat_isDirectory) = true)
                ∧ i.(item_size) = stats.(stat_size)
                ∧ i.(item_modified) = stats.(stat_mtime))
        [{| item_name := "b"; item_path := "b"; item_type := directory;
            item_size := 4096; item_modified := 1700000000500 |};
         {| item_name := "a.txt"; item_path := "a.txt"; item_type := file;
            item_size := 10; item_modified := 1700000000000 |}].
Proof.
  apply (listing_is_sorted_permutation sample_node "/workspace" "/workspace").
  vm_compute. reflexivity.
Defined.

Lemma stat_items_all_ok (node : Node) (root dirPath : string) (items : list string) :
  Forall (λ i, ∃ stats, node.(fs_stat) (node.(path_join) dirPath i) = resolved stats)
    items →
  ∃ result, stat_items node root dirPath items = resolved result.
Proof.
  induction 1 as [|item items [stats Hs] _ [rest IH]]; simpl; [by eexists|].
  rewrite Hs, IH. by eexists.
Qed.

Lemma stat_items_first_failure (node : Node) (root dirPath : string)
    (before after : list string) (item message : string) :
  Forall (λ i, ∃ stats, node.(fs_stat) (node.(path_join) dirPath i) = resolved stats)
    before →
  node.(fs_stat) (node.(path_join) dirPath item) = rejected message →
  stat_items node root dirPath (before ++ item :: after) = rejected message.
Proof.
  intros Hb Hitem. induction Hb as [|b before [stats Hs] _ IH]; simpl.
  - by rewrite Hitem.
  - by rewrite Hs, IH.
Qed.

(** X15: GET /api/files answers 200 exactly when [readdir] and the [stat] of
    every entry succeed; when [readdir] fails, or the [stat] of any entry
    fails, it answers 500 with the message of that first failure and no
    listing at all, not even of the entries whose [stat] succeeded. *)
Theorem listing_failure_is_500 (node : Node) (root : string) (dir : option string) :
  (∀ message,
     node.(fs_readdir) (node.(path_join) root (default EmptyString dir))
       = rejected message →
     route_files node root dir = status_json 500 (body_error message None))
  ∧ (∀ before item after message,
       node.(fs_readdir) (node.(path_join) root (default EmptyString dir))
         = resolved (before ++ item :: after) →
       Forall (λ i, ∃ stats,
                 node.(fs_stat)
                   (node.(path_join) (node.(path_join) root (default EmptyString dir)) i)
                 = resolved stats) before →
       node.(fs_stat)
         (node.(path_join) (node.(path_join) root (default EmptyString dir)) item)
         = rejected message →
       route_files node root dir = status_json 500 (body_error message None))
  ∧ (∀ items,
       node.(fs_readdir) (node.(path_join) root (default EmptyString dir))
         = resolved items →
       Forall (λ i, ∃ stats,
                 node.(fs_stat)
                   (node.(path_join) (node.(path_join) root (default EmptyString dir)) i)
                 = resolved stats) items →
       (route_files node root dir).(status) = 200%N).
Proof.
  unfold route_files, getDirectoryContents. repeat split.
  - intros message ->. done.
  - intros before item after message -> Hb Hitem.
    by rewrite (stat_items_first_failure _ _ _ _ _ _ _ Hb Hitem).
  - intros items -> Hall.
    by destruct (stat_items_all_ok node root _ _ Hall) as [result ->].
Qed.

Example listing_of_missing_directory :
  route_files sample_node "/workspace" (Some "nowhere")
  = status_json 500 (body_error "ENOENT: no such file or directory" None).
Proof. vm_compute. reflexivity. Qed.

(** ** Reading and writing a file *)

(** X16: GET /api/file, and POST /api/file for a request that has a body,
    answer 400 for a missing or empty path whatever the file system holds.
    With a path, GET answers 200 or 404 and its 404 body is always the same
    [File not found], whatever went wrong; POST answers 200 echoing the path
    as sent, or 500 carrying the message of the failed [ensureDir] or
    [writeFile].  A POST without a request body is answered 500, before the
    path is looked at. *)
Theorem file_routes_errors (node : Node) (root : string) (relativePath : option string)
    (content : option string) :
  (truthy relativePath = false →
     route_file_get node root relativePath
       = status_json 400 (body_error "Path parameter required" None)
     ∧ route_file_post node root
         (Some {| fb_path := relativePath; fb_content := content |})
       = status_json 400 (body_error "Path parameter required" None))
  ∧ (truthy relativePath = true →
     ((∃ c size modified, route_file_get node root relativePath
                          = json (body_file c size modified
                                    (or_string relativePath EmptyString)))
      ∨ route_file_get node root relativePath
        = status_json 404 (body_error "File not found" None))
     ∧ (route_file_post node root
          (Some {| fb_path := relativePath; fb_content := content |})
          = json (body_saved (or_string relativePath EmptyString))
        ∨ ∃ message,
            route_file_post node root
              (Some {| fb_path := relativePath; fb_content := content |})
            = status_json 500 (body_error message None)
            ∧ (node.(fs_ensureDir)
                 (node.(path_dirname)
                    (node.(path_join) root (or_string relativePath EmptyString)))
               = rejected message
               ∨ node.(fs_writeFile)
                   (node.(path_join) root (or_string relativePath EmptyString)) content
                 = rejected message)))
  ∧ route_file_post node root None
    = status_json 500 (body_error (cannot_destructure "path" "req.body") None).
Proof.
  unfold route_file_get, route_file_post. simpl. split; [|split; [|done]];
    intros ->; simpl.
  - done.
  - split.
    + destruct (fs_readFile node _) as [c|]; [|by right].
      destruct (fs_stat node _) as [stats|]; [|by right].
      left. by do 3 eexists.
    + destruct (fs_ensureDir node _) as [[]|m] eqn:E1; [|right; exists m; by split; [|left]].
      destruct (fs_writeFile node _ content) as [[]|m] eqn:E2; [by left|].
      right. exists m. by split; [|right].
Qed.

Example post_without_path_or_body :
  (route_file_post sample_node "/workspace"
     (Some {| fb_path := Some EmptyString; fb_content := Some "x" |})).(status) = 400%N
  ∧ (route_file_post sample_node "/workspace" None).(status) = 500%N
  ∧ (route_file_post sample_node "/workspace"
       (Some {| fb_path := Some "b"; fb_content := Some "x" |})).(status) = 500%N
  ∧ (route_file_post sample_node "/workspace"
       (Some {| fb_path := Some "c.txt"; fb_content := Some "x" |})).(status) = 200%N.
Proof. vm_compute. repeat split. Qed.

(** ** The health route *)

Lemma cleanup_terminals_perm sock (st : Server) :
  map_to_list (cleanup sock st).(terminals)
  ≡ₚ filter (λ e, ¬ e.2.(socket) = sock) (map_to_list st.(terminals)).
Proof.
  apply NoDup_Permutation.
  - apply NoDup_map_to_list.
  - apply NoDup_filter, NoDup_map_to_list.
  - intros [k t]. rewrite list_elem_of_filter, !elem_of_map_to_list.
    rewrite cleanup_terminals_lookup. simpl.
    destruct (terminals st !! k) as [t0|]; [|by split; [|intros [_ ?]]].
    destruct (decide (socket t0 = sock)) as [Hs|Hs]; split.
    + done.
    + intros [Hn [= ->]]. done.
    + intros [= ->]. done.
    + by intros [_ ?].
Qed.

(** X17: the number of terminals GET /api/health reports drops on a
    disconnect by exactly the number of sessions the connection owned, and
    a create raises it by one unless the identifier was already
    registered, in which case it stays as it was. *)
Theorem health_counts_registry_entries (sock : Socket) (data : option CreateData)
    (now now' : N) (st : Server) :
  route_health now' (cleanup sock st)
  = json (body_health (size st.(terminals) - length (owned_sessions sock st))
            st.(workspaceRoot) now')
  ∧ length (owned_sessions sock st) ≤ size st.(terminals)
  ∧ route_health now' (createTerminal sock data now st).2
    = json (body_health
              (match st.(terminals) !! (createTerminal sock data now st).1 with
               | Some _ => size st.(terminals)
               | None => S (size st.(terminals))
               end) st.(workspaceRoot) now').
Proof.
  assert (size (cleanup sock st).(terminals) + length (owned_sessions sock st)
          = size st.(terminals)) as Hsize.
  { rewrite <- !length_map_to_list, cleanup_terminals_perm. unfold owned_sessions.
    rewrite <- (filter_app_complement (λ e : string * Terminal, e.2.(socket) = sock)
                  (map_to_list (terminals st))) at 3.
    rewrite length_app. lia. }
  unfold route_health. split; [|split].
  - assert ((cleanup sock st).(workspaceRoot) = st.(workspaceRoot)) as ->
      by (by rewrite cleanup_is_batch).
    do 2 f_equal. lia.
  - lia.
  - unfold createTerminal. simpl. rewrite map_size_insert.
    by destruct (terminals st !! _).
Qed.

(** * The hosted-model client *)

(** X18: [chat] reports success exactly when [fetch] resolved with an [ok]
    response whose body parses to a completion with a first choice that has
    a message; the content, usage and model are then read from that
    completion.  With a status that is not [ok] the JSON body is never
    consulted: the result is a failure whose message carries the status and
    the text of the response. *)
Theorem chat_success_iff (fetch : ChatRequest → Awaited HttpResponse)
    (api : OpenRouterAI) (messages : list ChatMessage) (options : ChatOptions)
    (c u m : option string) :
  (chat fetch api messages (Some options) = chat_success c u m
   ↔ ∃ response data choice rest message,
       fetch (chat_request api messages options) = resolved response
       ∧ response.(resp_ok) = true
       ∧ response.(resp_json) = resolved data
       ∧ data.(cp_choices) = Some (choice :: rest)
       ∧ choice.(ch_message) = Some message
       ∧ c = message.(cm_content) ∧ u = data.(cp_usage) ∧ m = data.(cp_model))
  ∧ (∀ response error,
       fetch (chat_request api messages options) = resolved response →
       response.(resp_ok) = false →
       response.(resp_text) = resolved error →
       chat fetch api messages (Some options)
       = chat_failure
           (error_with ("OpenRouter API error: "
                        +:+ number_to_string response.(resp_status)
                        +:+ " - " +:+ error))).
Proof.
  unfold chat, chat_try. simpl. split; [split|].
  - destruct (fetch _) as [response|]; [|done].
    destruct (resp_ok response) eqn:Hok; simpl;
      [|by destruct (resp_text response)].
    destruct (resp_json response) as [data|] eqn:Hj; [|done].
    destruct (cp_choices data) as [[|choice rest]|] eqn:Hc; [done| |done].
    destruct (ch_message choice) as [message|] eqn:Hm; [|done].
    intros [= <- <- <-]. by exists response, data, choice, rest, message.
  - intros (response & data & choice & rest & message
            & -> & -> & -> & -> & -> & -> & -> & ->). done.
  - intros response error -> -> ->. done.
Qed.

(** X19: POST /api/ai/chat answers 503 exactly when no API key is
    configured (unset or empty), 500 only when it has a key but the request
    has no body, and 200 otherwise, also when the upstream call failed: the
    failure travels in the body of a 200 answer.  The upstream request asks
    for at most 2048 tokens and carries one user message. *)
Theorem ai_chat_route_status (fetch : ChatRequest → Awaited HttpResponse)
    (key : option string) (reqBody : option ChatBody) :
  ((route_ai_chat fetch (configure_ai key) reqBody).(ai_status) = 503%N
   ↔ truthy key = false)
  ∧ ((route_ai_chat fetch (configure_ai key) reqBody).(ai_status) = 500%N
     ↔ truthy key = true ∧ reqBody = None)
  ∧ (∀ k b, configure_ai key = Some k → reqBody = Some b →
       (route_ai_chat fetch (configure_ai key) reqBody).(ai_status) = 200%N
       ∧ (∀ message,
            fetch (chat_request k [{| role := "user"; content := b.(cb_message) |}]
                     {| opt_maxTokens := Some 2048%N |}) = rejected message →
            (route_ai_chat fetch (configure_ai key) reqBody).(ai_body)
            = ai_result (chat_failure (error_with message)))
       ∧ (chat_request k [{| role := "user"; content := b.(cb_message) |}]
            {| opt_maxTokens := Some 2048%N |}).(rq_max_tokens) = 2048%N).
Proof.
  unfold route_ai_chat, configure_ai.
  destruct key as [[|c s]|], reqBody as [b|]; simpl;
    (split; [split; [done|done]|]); (split; [split; [done|by intros []]|]);
    intros k b' Hk Hb; try done.
  injection Hk as <-. injection Hb as <-. split; [done|]. split; [|done].
  intros message Hf. unfold chat, chat_try, chat_request in *. simpl in *.
  by rewrite Hf.
Qed.

(** ** The overlay protocol from start to stop *)

Lemma settle_after_start sock kind tid (t : Terminal) spawn now (st : Server) :
  checkCLIAvailability spawn kind = Fulfilled true →
  settle (length st.(probes)) spawn now
    (set_probes (λ l, l ++ [{| pr_socket := sock; pr_type := kind;
                               pr_terminalId := tid; pr_terminal := t |}]) st)
  = emit sock (cli_started tid kind (kind +:+ " CLI started successfully"))
      (set_cliProcesses (insert tid {| type := kind; active := true; startedAt := now |})
         (pty_write t.(ptyProcess) (kind +:+ CR) st)).
Proof.
  intros Hc. unfold settle. simpl. rewrite list_lookup_middle by done. simpl.
  rewrite Hc. unfold startCLI_then, set_probes, pty_write, set_ptys,
    set_cliProcesses, emit; simpl. rewrite delete_last_app. by destruct st.
Qed.

(** X20: on a live session, a start whose probe finds the CLI, a command, a
    stop and a second command, handled in this order, all return; the
    process of the session is written the launch line, the enriched command
    and the interrupt byte, in this order and nothing else; the requester is
    sent started, command-sent, stopped and then the [CLI not active]
    error; the session entry is untouched and no overlay is left. *)
Theorem overlay_protocol_round_trip (sock : Socket) (kind tid command : string)
    (ctx : option Context) (t : Terminal)
    (spawn : string → list string → Spawned) (now : N) (st : Server) :
  reachable st → st.(terminals) !! tid = Some t →
  checkCLIAvailability spawn kind = Fulfilled true →
  ∃ st',
    run [ev_cli_start sock (Some {| s_type := kind; s_terminalId := tid |});
         ev_probe (length st.(probes)) spawn now;
         ev_cli_command sock
           (Some {| m_terminalId := tid; m_command := command; m_context := ctx |});
         ev_cli_stop sock (Some {| p_terminalId := tid |});
         ev_cli_command sock
           (Some {| m_terminalId := tid; m_command := command; m_context := ctx |})]
      st = Returned st'
    ∧ st'.(outbox)
      = st.(outbox)
        ++ [(sock, cli_started tid kind (kind +:+ " CLI started successfully"));
            (sock, cli_command_sent tid (buildEnrichedPrompt command ctx) kind);
            (sock, cli_stopped tid kind);
            (sock, cli_error "CLI not active" None)]
    ∧ (∃ p, st.(ptys) !! t.(ptyProcess) = Some p
          ∧ pty_input <$> st'.(ptys) !! t.(ptyProcess)
            = Some (p.(pty_input)
                    ++ [kind +:+ CR; buildEnrichedPrompt command ctx +:+ CR; ETX]))
    ∧ (∀ h, h ≠ t.(ptyProcess) → st'.(ptys) !! h = st.(ptys) !! h)
    ∧ st'.(terminals) = st.(terminals)
    ∧ st'.(cliProcesses) !! tid = None
    ∧ st'.(probes) = st.(probes).
Proof.
  intros Hwf%reachable_wf Ht Hc.
  destruct (Hwf tid t Ht) as (_ & p & Hp & _).
  eexists. split.
  { cbn [run handle]. unfold startCLI. cbn [s_terminalId s_type]. rewrite Ht.
    cbn [run handle]. rewrite (settle_after_start sock kind tid t spawn now st Hc).
    unfold sendCLICommand at 1. cbn [m_terminalId m_command m_context].
    cbn [terminals cliProcesses emit set_cliProcesses pty_write set_ptys].
    rewrite Ht, lookup_insert_eq. cbn [type].
    unfold stopCLI. cbn [p_terminalId].
    cbn [terminals cliProcesses emit set_cliProcesses pty_write set_ptys].
    rewrite Ht, lookup_insert_eq. cbn [type].
    unfold sendCLICommand. cbn [m_terminalId m_command m_context].
    cbn [terminals cliProcesses emit set_cliProcesses pty_write set_ptys].
    rewrite Ht, lookup_delete_eq. reflexivity. }
  cbn [terminals cliProcesses ptys outbox probes emit set_cliProcesses pty_write
       set_ptys].
  split; [by rewrite <- !app_assoc|].
  split.
  { exists p. split; [done|]. rewrite !list_lookup_alter_eq, Hp. simpl.
    by rewrite <- !app_assoc. }
  split; [intros h Hh; by rewrite !list_lookup_alter_ne|].
  split; [done|]. split; [apply lookup_delete_eq|done].
Qed.

Lemma overlay_protocol_round_trip_witness :
  ∃ st',
    run [ev_cli_start 1 (Some {| s_type := "gemini"; s_terminalId := "b" |});
         ev_probe (length (state_after three_sessions).(probes)) installed 1700000009000;
         ev_cli_command 1
           (Some {| m_terminalId := "b"; m_command := "explain"; m_context := None |});
         ev_cli_stop 1 (Some {| p_terminalId := "b" |});
         ev_cli_command 1
           (Some {| m_terminalId := "b"; m_command := "explain"; m_context := None |})]
      (state_after three_sessions) = Returned st'
    ∧ st'.(outbox)
      = (state_after three_sessions).(outbox)
        ++ [(1, cli_started "b" "gemini" ("gemini" +:+ " CLI started successfully"));
            (1, cli_command_sent "b" (buildEnrichedPrompt "explain" None) "gemini");
            (1, cli_stopped "b" "gemini");
            (1, cli_error "CLI not active" None)]
    ∧ (∃ p, (state_after three_sessions).(ptys) !! 1 = Some p
          ∧ pty_input <$> st'.(ptys) !! 1
            = Some (p.(pty_input)
                    ++ ["gemini" +:+ CR; buildEnrichedPrompt "explain" None +:+ CR; ETX]))
    ∧ (∀ h, h ≠ 1 → st'.(ptys) !! h = (state_after three_sessions).(ptys) !! h)
    ∧ st'.(terminals) = (state_after three_sessions).(terminals)
    ∧ st'.(cliProcesses) !! "b" = None
    ∧ st'.(probes) = (state_after three_sessions).(probes).
Proof.
  apply (overlay_protocol_round_trip 1 "gemini" "b" "explain" None
           {| id := "b"; ptyProcess := 1; socket := 1; createdAt := 1700000000001 |}
           installed 1700000009000 (state_after three_sessions)).
  - apply reachable_state_after.
  - vm_compute. reflexivity.
  - reflexivity.
Defined.

(** * File watching *)



(** ** The order of the directory listing *)

Lemma item_before_total (node : Node) (a b : Item) :
  consistent_names node → ¬ item_before node a b → item_before node b a.
Proof.
  intros [Htot _]. unfold item_before, compare_items.
  destruct (item_type a), (item_type b); try lia; intros H; apply Htot; lia.
Qed.

Lemma item_before_trans (node : Node) (a b c : Item) :
  consistent_names node →
  item_before node a b → item_before node b c → item_before node a c.
Proof.
  intros [_ Htr]. unfold item_before, compare_items.
  destruct (item_type a), (item_type b), (item_type c); try lia; apply Htr.
Qed.

Lemma sort_insert_sorted (node : Node) (x : Item) (l : list Item) :
  consistent_names node →
  StronglySorted (item_before node) l →
  StronglySorted (item_before node) (sort_insert (compare_items node) x l).
Proof.
  intros Hc. induction 1 as [|y l Hl IH Hy]; simpl.
  - by repeat constructor.
  - destruct (compare_items node x y <=? 0)%Z eqn:E.
    + apply Z.leb_le in E. constructor; [by constructor|].
      constructor; [done|]. eapply Forall_impl; [exact Hy|].
      intros z Hz. by eapply item_before_trans.
    + apply Z.leb_gt in E. constructor; [done|].
      rewrite sort_insert_perm. constructor; [|done].
      apply item_before_total; [done|]. unfold item_before. lia.
Qed.

Lemma sort_sorted (node : Node) (l : list Item) :
  consistent_names node → StronglySorted (item_before node) (sort (compare_items node) l).
Proof.
  intros Hc. induction l as [|x l IH]; [constructor|].
  unfold sort in *. simpl. by apply sort_insert_sorted.
Qed.

(** X22: when [localeCompare] orders names consistently, a successful
    listing is in the comparator's order: each entry is followed only by
    entries it does not come after, that is, directories before files and,
    within each kind, names in [localeCompare] order. *)
Theorem listing_in_comparator_order (node : Node) (root dirPath : string)
    (result : list Item) :
  consistent_names node →
  getDirectoryContents node root dirPath = resolved result →
  StronglySorted (item_before node) result.
Proof.
  intros Hc. unfold getDirectoryContents.
  destruct (fs_readdir node dirPath) as [items|]; [|done].
  destruct (stat_items node root dirPath items) as [unsorted|]; [|done].
  intros [= <-]. by apply sort_sorted.
Qed.

Lemma sample_names_le (a b : string) :
  (sample_node.(localeCompare) a b ≤ 0)%Z ↔ String.le a b.
Proof.
  unfold String.le, String.leb. simpl.
  destruct (String.compare a b); simpl; split; try done; lia.
Qed.

Lemma sample_names_consistent : consistent_names sample_node.
Proof.
  split.
  - intros a b Hab. apply sample_names_le.
    destruct (total String.le a b) as [H|H]; [|done].
    apply sample_names_le in H. lia.
  - intros a b c. rewrite !sample_names_le. apply transitivity.
Qed.

Lemma listing_in_comparator_order_witness :
  StronglySorted (item_before sample_node)
    [{| item_name := "b"; item_path := "b"; item_type := directory;
        item_size := 4096; item_modified := 1700000000500 |};
     {| item_name := "a.txt"; item_path := "a.txt"; item_type := file;
        item_size := 10; item_modified := 1700000000000 |}].
Proof.
  apply (listing_in_comparator_order sample_node "/workspace" "/workspace").
  - apply sample_names_consistent.
  - vm_compute. reflexivity.
Defined.

(** ** A reconnect before the old shell has exited *)

(** X23: when a connection disconnects and a session is created again under
    the same identifier before the signalled process has exited, the late
    exit of the old process deletes the entry of the new session: the new
    process is live but unregistered, input for the identifier is dropped,
    and the exit notification, tagged with the shared identifier, goes to
    the old socket. *)
Theorem late_exit_unregisters_new_session (st : Server) (tid : string) (t : Terminal)
    (sock' : Socket) (cols rows : option N) (cwd : option string) (now : N)
    (exitCode : Z) (signal : option Z) :
  reachable st → st.(terminals) !! tid = Some t →
  ∃ st2 st3,
    st2 = (createTerminal sock'
             (Some {| c_terminalId := Some tid; c_cols := cols; c_rows := rows;
                      c_cwd := cwd |}) now (cleanup t.(socket) st)).2
    ∧ st3 = onExit t.(ptyProcess) exitCode signal st2
    ∧ st2.(terminals) !! tid
      = Some {| id := tid; ptyProcess := length st.(ptys); socket := sock';
                createdAt := now |}
    ∧ st3.(terminals) !! tid = None
    ∧ pty_exited <$> st3.(ptys) !! length st.(ptys) = Some false
    ∧ (∀ input,
         on_terminal_input (Some {| i_terminalId := tid; i_input := input |}) st3
         = Returned st3)
    ∧ last st3.(outbox) = Some (t.(socket), terminal_exit tid exitCode signal).
Proof.
  intros Hr Ht. pose proof (reachable_inv _ Hr) as (Hwf & _ & _ & Hn & _).
  destruct (Hwf tid t Ht) as (_ & p & Hp & Hex & Hcb & Hsock).
  assert (tid ≠ EmptyString) as Htid.
  { unfold table_named in Hn. rewrite Forall_lookup in Hn. rewrite <- Hcb. by eapply Hn. }
  pose proof (lookup_lt_Some _ _ _ Hp) as Hlt.
  pose proof (cleanup_signals_owned _ st tid t Hwf Ht eq_refl) as Hsig.
  rewrite Hp in Hsig. simpl in Hsig.
  assert (length (cleanup (socket t) st).(ptys) = length st.(ptys)) as Hlen
    by (rewrite cleanup_ptys; apply length_kill_all).
  pose proof (createTerminal_named sock' tid cols rows cwd now
                (cleanup (socket t) st) Htid) as Hnew.
  rewrite Hlen in Hnew.
  remember (createTerminal sock'
              (Some {| c_terminalId := Some tid; c_cols := cols; c_rows := rows;
                       c_cwd := cwd |}) now (cleanup (socket t) st)).2 as st2 eqn:E2.
  assert (∃ q, st2.(ptys) = (cleanup (socket t) st).(ptys) ++ [q]
               ∧ q.(pty_exited) = false) as (q & Hptys & Hq).
  { subst st2. by eexists. }
  assert (st2.(ptys) !! ptyProcess t = Some (signalled p)) as Hold.
  { rewrite Hptys, lookup_app_l by lia. done. }
  destruct (onExit_live (ptyProcess t) exitCode signal st2 (signalled p) Hold)
    as [Hout Hterm]; [done|].
  simpl in Hout, Hterm. rewrite Hcb, Hsock in Hout. rewrite Hcb in Hterm.
  exists st2, (onExit (ptyProcess t) exitCode signal st2).
  split; [done|]. split; [done|]. split; [done|].
  assert ((onExit (ptyProcess t) exitCode signal st2).(terminals) !! tid = None)
    as Hgone by (rewrite Hterm; apply lookup_delete_eq).
  split; [done|]. split; [|split].
  - unfold onExit. rewrite Hold. simpl.
    rewrite list_lookup_alter_ne by lia.
    rewrite Hptys, <- Hlen, list_lookup_middle by done. simpl. by rewrite Hq.
  - intros input. unfold on_terminal_input. simpl. by rewrite Hgone.
  - rewrite Hout. apply last_snoc.
Qed.

Lemma late_exit_unregisters_new_session_witness :
  ∃ st2 st3,
    st2 = (createTerminal 2
             (Some {| c_terminalId := Some "main-terminal"; c_cols := None;
                      c_rows := None; c_cwd := None |}) 1700000009000
             (cleanup 1
                (state_after [ev_terminal_create 1 (create_named "main-terminal")
                                1700000000000]))).2
    ∧ st3 = onExit 0 0 (Some 1%Z) st2
    ∧ st2.(terminals) !! "main-terminal"
      = Some {| id := "main-terminal";
                ptyProcess := length (state_after
                  [ev_terminal_create 1 (create_named "main-terminal")
                     1700000000000]).(ptys);
                socket := 2; createdAt := 1700000009000 |}
    ∧ st3.(terminals) !! "main-terminal" = None
    ∧ pty_exited <$> st3.(ptys) !! length (state_after
        [ev_terminal_create 1 (create_named "main-terminal") 1700000000000]).(ptys)
      = Some false
    ∧ (∀ input,
         on_terminal_input (Some {| i_terminalId := "main-terminal"; i_input := input |})
           st3 = Returned st3)
    ∧ last st3.(outbox) = Some (1, terminal_exit "main-terminal" 0 (Some 1%Z)).
Proof.
  apply (late_exit_unregisters_new_session
           (state_after [ev_terminal_create 1 (create_named "main-terminal")
                           1700000000000])
           "main-terminal"
           {| id := "main-terminal"; ptyProcess := 0; socket := 1;
              createdAt := 1700000000000 |}
           2 None None None 1700000009000 0 (Some 1%Z)).
  - apply reachable_state_after.
  - vm_compute. reflexivity.
Defined.

(** ** Sessions, processes and signals *)

(** X24: in every state the server reaches, two sessions of the registry
    never share a process: entries under different identifiers hold
    different handles. *)
Theorem sessions_never_share_a_process (st : Server) (k1 k2 : string)
    (t1 t2 : Terminal) :
  reachable st →
  st.(terminals) !! k1 = Some t1 → st.(terminals) !! k2 = Some t2 →
  t1.(ptyProcess) = t2.(ptyProcess) → k1 = k2.
Proof. intros Hwf%reachable_wf. by apply wf_handle_inj. Qed.

Lemma sessions_never_share_a_process_witness : "a" = "a".
Proof.
  apply (sessions_never_share_a_process (state_after three_sessions) "a" "a"
           {| id := "a"; ptyProcess := 0; socket := 1; createdAt := 1700000000000 |}
           {| id := "a"; ptyProcess := 0; socket := 1; createdAt := 1700000000000 |}).
  - apply reachable_state_after.
  - vm_compute. reflexivity.
  - vm_compute. reflexivity.
  - reflexivity.
Defined.

Lemma sum_alter_same_signals (f : Pty → Pty) (h : nat) (ps : list Pty) :
  (∀ p, pty_signals (f p) = pty_signals p) →
  sum_list_with pty_signals (alter f h ps) = sum_list_with pty_signals ps.
Proof.
  intros Hf. revert h. induction ps as [|p ps IH]; intros [|h]; try done.
  - cbn. by rewrite Hf.
  - pose proof (IH h) as E. cbn in *. lia.
Qed.

Lemma signals_alter (f : Pty → Pty) (h : nat) (st st' : Server) :
  st'.(ptys) = alter f h st.(ptys) →
  (∀ p, pty_signals (f p) = pty_signals p) →
  total_signals st' = total_signals st
  ∧ ∀ h' p, st.(ptys) !! h' = Some p →
      pty_signals <$> st'.(ptys) !! h' = Some p.(pty_signals).
Proof.
  intros E Hf. unfold total_signals. rewrite E. split.
  - by apply sum_alter_same_signals.
  - intros h' p Hp. rewrite list_lookup_alter. case_decide.
    + subst h'. rewrite Hp. simpl. by rewrite Hf.
    + by rewrite Hp.
Qed.

Lemma signals_same (st st' : Server) :
  st'.(ptys) = st.(ptys) →
  total_signals st' = total_signals st
  ∧ ∀ h' p, st.(ptys) !! h' = Some p →
      pty_signals <$> st'.(ptys) !! h' = Some p.(pty_signals).
Proof.
  intros E. unfold total_signals. rewrite E. split; [done|].
  intros h' p Hp. by rewrite Hp.
Qed.

(** X25: no handler other than the disconnect handler ever signals a
    process: a stop, a create over a live identifier, an exit or any other
    event leaves the number of signals sent to every process as it was. *)
Theorem only_disconnect_signals (ev : Event) (st st' : Server) :
  handle ev st = Returned st' → is_disconnect ev = false →
  total_signals st' = total_signals st
  ∧ ∀ h p, st.(ptys) !! h = Some p →
      pty_signals <$> st'.(ptys) !! h = Some p.(pty_signals).
Proof.
  intros Hstep Hev.
  destruct ev as [sock data now|sock data|sock data|sock data|sock data
                  |sock data|sock|h data|h exitCode signal|k spawn now];
    simpl in Hstep; try done.
  - injection Hstep as <-. unfold total_signals. simpl. split.
    + rewrite sum_list_with_app. simpl. lia.
    + intros h p Hp. rewrite lookup_app_l by (by eapply lookup_lt_Some).
      by rewrite Hp.
  - destruct data as [data|]; [|done]. simpl in Hstep.
    destruct (terminals st !! i_terminalId data); injection Hstep as <-;
      [by (eapply signals_alter; [reflexivity|])|by apply signals_same].
  - destruct data as [data|]; [|done]. simpl in Hstep.
    destruct (terminals st !! r_terminalId data); [case_bool_decide; [done|]|]; injection Hstep as <-;
      [by (eapply signals_alter; [reflexivity|])|by apply signals_same].
  - destruct data as [data|]; [|done]. simpl in Hstep.
    destruct (terminals st !! s_terminalId data); injection Hstep as <-;
      by apply signals_same.
  - destruct data as [data|]; [|done]. simpl in Hstep.
    destruct (terminals st !! m_terminalId data) as [t|],
      (cliProcesses st !! m_terminalId data); injection Hstep as <-;
      try (by apply signals_same).
    by (eapply signals_alter; [reflexivity|]).
  - destruct data as [data|]; [|done]. simpl in Hstep.
    destruct (cliProcesses st !! p_terminalId data); injection Hstep as <-;
      [|by apply signals_same].
    destruct (terminals st !! p_terminalId data) as [t|];
      [by (eapply signals_alter; [reflexivity|])|by apply signals_same].
  - injection Hstep as <-. unfold onData. destruct (ptys st !! h) as [p|];
      by apply signals_same.
  - injection Hstep as <-. unfold onExit. destruct (ptys st !! h) as [p|];
      [|by apply signals_same].
    by (eapply signals_alter; [reflexivity|]).
  - injection Hstep as <-. unfold settle. destruct (probes st !! k) as [p|];
      [|by apply signals_same].
    destruct (checkCLIAvailability spawn (pr_type p)) as [|[|]|reason];
      [by apply signals_same|by (eapply signals_alter; [reflexivity|])
      |by apply signals_same..].
Qed.

Lemma only_disconnect_signals_witness :
  total_signals
    (emit 1 (cli_stopped "a" "claude")
       (set_cliProcesses (delete "a") (pty_write 0 ETX (state_after three_sessions))))
  = total_signals (state_after three_sessions)
  ∧ ∀ h p, (state_after three_sessions).(ptys) !! h = Some p →
      pty_signals <$>
        (emit 1 (cli_stopped "a" "claude")
           (set_cliProcesses (delete "a")
              (pty_write 0 ETX (state_after three_sessions)))).(ptys) !! h
      = Some p.(pty_signals).
Proof.
  apply (only_disconnect_signals (ev_cli_stop 1 (Some {| p_terminalId := "a" |}))
           (state_after three_sessions)).
  - simpl. unfold stopCLI. simpl.
    assert ((state_after three_sessions).(cliProcesses) !! "a"
            = Some {| type := "claude"; active := true; startedAt := 1700000000100 |})
      as -> by (vm_compute; reflexivity).
    assert ((state_after three_sessions).(terminals) !! "a"
            = Some {| id := "a"; ptyProcess := 0; socket := 1;
                      createdAt := 1700000000000 |})
      as -> by (vm_compute; reflexivity).
    reflexivity.
  - reflexivity.
Defined.
